(** * The gateway's route table and proxy front-end

    A shallow embedding of [pkg/model] (server, route table) and
    [pkg/proxy] (reverse-proxy handler) of the gateway, with the
    properties of its specification stated over the embedding.

    Conventions.
    - Go's [int] is a 64-bit two's-complement integer: a [Z] kept in range
      by [wrap] after every arithmetic operation; [/] on [int] truncates
      towards zero ([Z.quot]).
    - Go's [error] values are modelled by their text.
    - Pointers to mutable objects ([*Server], [*Cluster]) are locations into
      a store kept in the route table's state, so that the aliasing between
      [clusters], [mapping] and the event channel is the code's.
    - Maps whose order of iteration does not matter are [gmap]s.  Maps
      that are ranged over with an order-dependent body ([apis],
      [routings]) are association lists: the order of the list is the
      order in which the [range] statement visits the entries, which Go
      leaves unspecified; statements quantify over every list, hence over
      every order. *)

From Stdlib Require Import ZArith String Ascii List Bool Lia.
From stdpp Require Import base option list gmap strings fin_maps.

Local Open Scope string_scope.
Local Open Scope Z_scope.

(** ** Go's machine integers *)

Definition int_min : Z := - 2 ^ 63.
Definition int_max : Z := 2 ^ 63 - 1.

Definition in_int (z : Z) : Prop := int_min <= z <= int_max.

Definition in_intb (z : Z) : bool := (int_min <=? z) && (z <=? int_max).

(** Two's-complement wrap-around of a 64-bit [int]. *)
Definition wrap (z : Z) : Z := (z + 2 ^ 63) mod 2 ^ 64 - 2 ^ 63.

(** Go errors, by their text. *)
Definition error : Type := string.

(** What a Go function does: it returns, or it panics (nil dereference). *)
Inductive outcome (A : Type) : Type :=
| Done (a : A)
| Panic.
Arguments Done {A} a.
Arguments Panic {A}.

#[global] Instance outcome_ret : MRet outcome := fun A a => Done a.

#[global] Instance outcome_bind : MBind outcome := fun A B k m =>
  match m with
  | Done a => k a
  | Panic => Panic
  end.

(** Pointers: locations into a store of objects. *)
Definition loc : Type := positive.

(** ** server.go *)

(** [type Status int], [type Circuit int]. *)
Definition StatusT : Type := Z.
Definition CircuitT : Type := Z.

Definition Down : StatusT := 0.
Definition Up : StatusT := 1.

Definition CircuitOpen : CircuitT := 0.
Definition CircuitHalf : CircuitT := 1.
Definition CircuitClose : CircuitT := 2.

Definition DefaultCheckDurationInSeconds : Z := 5.
Definition DefaultCheckTimeoutInSeconds : Z := 3.

(** [time.Second], in nanoseconds. *)
Definition Second : Z := 1000000000.

(** The [Server] struct.  [httpClient] holds the client's timeout when the
    client has been created ([nil] otherwise); [lock] tells whether the
    mutex has been allocated. *)
Record Server : Type := Build_Server {
  Schema : string;
  Addr : string;
  External : bool;
  CheckPath : string;
  CheckResponsedBody : string;
  CheckDuration : Z;
  CheckTimeout : Z;
  Status : StatusT;
  MaxQPS : Z;
  HalfToOpenSeconds : Z;
  HalfTrafficRate : Z;
  HalfToOpenSucceedRate : Z;
  HalfToOpenCollectSeconds : Z;
  OpenToCloseFailureRate : Z;
  OpenToCloseCollectSeconds : Z;
  BindClusters : list string;
  httpClient : option Z;
  checkFailCount : Z;
  prevStatus : StatusT;
  useCheckDuration : Z;
  circuit : CircuitT;
  lock : bool;
  checkStopped : bool
}.

(** Field assignments. *)
Definition set_Schema (v : string) (s : Server) : Server :=
  Build_Server v (Addr s) (External s) (CheckPath s) (CheckResponsedBody s)
    (CheckDuration s) (CheckTimeout s) (Status s) (MaxQPS s) (HalfToOpenSeconds s)
    (HalfTrafficRate s) (HalfToOpenSucceedRate s) (HalfToOpenCollectSeconds s)
    (OpenToCloseFailureRate s) (OpenToCloseCollectSeconds s) (BindClusters s)
    (httpClient s) (checkFailCount s) (prevStatus s) (useCheckDuration s) (circuit s)
    (lock s) (checkStopped s).

Definition set_Addr (v : string) (s : Server) : Server :=
  Build_Server (Schema s) v (External s) (CheckPath s) (CheckResponsedBody s)
    (CheckDuration s) (CheckTimeout s) (Status s) (MaxQPS s) (HalfToOpenSeconds s)
    (HalfTrafficRate s) (HalfToOpenSucceedRate s) (HalfToOpenCollectSeconds s)
    (OpenToCloseFailureRate s) (OpenToCloseCollectSeconds s) (BindClusters s)
    (httpClient s) (checkFailCount s) (prevStatus s) (useCheckDuration s) (circuit s)
    (lock s) (checkStopped s).

Definition set_External (v : bool) (s : Server) : Server :=
  Build_Server (Schema s) (Addr s) v (CheckPath s) (CheckResponsedBody s)
    (CheckDuration s) (CheckTimeout s) (Status s) (MaxQPS s) (HalfToOpenSeconds s)
    (HalfTrafficRate s) (HalfToOpenSucceedRate s) (HalfToOpenCollectSeconds s)
    (OpenToCloseFailureRate s) (OpenToCloseCollectSeconds s) (BindClusters s)
    (httpClient s) (checkFailCount s) (prevStatus s) (useCheckDuration s) (circuit s)
    (lock s) (checkStopped s).

Definition set_CheckPath (v : string) (s : Server) : Server :=
  Build_Server (Schema s) (Addr s) (External s) v (CheckResponsedBody s)
    (CheckDuration s) (CheckTimeout s) (Status s) (MaxQPS s) (HalfToOpenSeconds s)
    (HalfTrafficRate s) (HalfToOpenSucceedRate s) (HalfToOpenCollectSeconds s)
    (OpenToCloseFailureRate s) (OpenToCloseCollectSeconds s) (BindClusters s)
    (httpClient s) (checkFailCount s) (prevStatus s) (useCheckDuration s) (circuit s)
    (lock s) (checkStopped s).

Definition set_CheckResponsedBody (v : string) (s : Server) : Server :=
  Build_Server (Schema s) (Addr s) (External s) (CheckPath s) v (CheckDuration s)
    (CheckTimeout s) (Status s) (MaxQPS s) (HalfToOpenSeconds s) (HalfTrafficRate s)
    (HalfToOpenSucceedRate s) (HalfToOpenCollectSeconds s) (OpenToCloseFailureRate s)
    (OpenToCloseCollectSeconds s) (BindClusters s) (httpClient s) (checkFailCount s)
    (prevStatus s) (useCheckDuration s) (circuit s) (lock s) (checkStopped s).

Definition set_CheckDuration (v : Z) (s : Server) : Server :=
  Build_Server (Schema s) (Addr s) (External s) (CheckPath s) (CheckResponsedBody s) v
    (CheckTimeout s) (Status s) (MaxQPS s) (HalfToOpenSeconds s) (HalfTrafficRate s)
    (HalfToOpenSucceedRate s) (HalfToOpenCollectSeconds s) (OpenToCloseFailureRate s)
    (OpenToCloseCollectSeconds s) (BindClusters s) (httpClient s) (checkFailCount s)
    (prevStatus s) (useCheckDuration s) (circuit s) (lock s) (checkStopped s).

Definition set_CheckTimeout (v : Z) (s : Server) : Server :=
  Build_Server (Schema s) (Addr s) (External s) (CheckPath s) (CheckResponsedBody s)
    (CheckDuration s) v (Status s) (MaxQPS s) (HalfToOpenSeconds s) (HalfTrafficRate s)
    (HalfToOpenSucceedRate s) (HalfToOpenCollectSeconds s) (OpenToCloseFailureRate s)
    (OpenToCloseCollectSeconds s) (BindClusters s) (httpClient s) (checkFailCount s)
    (prevStatus s) (useCheckDuration s) (circuit s) (lock s) (checkStopped s).

Definition set_Status (v : StatusT) (s : Server) : Server :=
  Build_Server (Schema s) (Addr s) (External s) (CheckPath s) (CheckResponsedBody s)
    (CheckDuration s) (CheckTimeout s) v (MaxQPS s) (HalfToOpenSeconds s)
    (HalfTrafficRate s) (HalfToOpenSucceedRate s) (HalfToOpenCollectSeconds s)
    (OpenToCloseFailureRate s) (OpenToCloseCollectSeconds s) (BindClusters s)
    (httpClient s) (checkFailCount s) (prevStatus s) (useCheckDuration s) (circuit s)
    (lock s) (checkStopped s).

Definition set_MaxQPS (v : Z) (s : Server) : Server :=
  Build_Server (Schema s) (Addr s) (External s) (CheckPath s) (CheckResponsedBody s)
    (CheckDuration s) (CheckTimeout s) (Status s) v (HalfToOpenSeconds s)
    (HalfTrafficRate s) (HalfToOpenSucceedRate s) (HalfToOpenCollectSeconds s)
    (OpenToCloseFailureRate s) (OpenToCloseCollectSeconds s) (BindClusters s)
    (httpClient s) (checkFailCount s) (prevStatus s) (useCheckDuration s) (circuit s)
    (lock s) (checkStopped s).

Definition set_HalfToOpenSeconds (v : Z) (s : Server) : Server :=
  Build_Server (Schema s) (Addr s) (External s) (CheckPath s) (CheckResponsedBody s)
    (CheckDuration s) (CheckTimeout s) (Status s) (MaxQPS s) v (HalfTrafficRate s)
    (HalfToOpenSucceedRate s) (HalfToOpenCollectSeconds s) (OpenToCloseFailureRate s)
    (OpenToCloseCollectSeconds s) (BindClusters s) (httpClient s) (checkFailCount s)
    (prevStatus s) (useCheckDuration s) (circuit s) (lock s) (checkStopped s).

Definition set_HalfTrafficRate (v : Z) (s : Server) : Server :=
  Build_Server (Schema s) (Addr s) (External s) (CheckPath s) (CheckResponsedBody s)
    (CheckDuration s) (CheckTimeout s) (Status s) (MaxQPS s) (HalfToOpenSeconds s) v
    (HalfToOpenSucceedRate s) (HalfToOpenCollectSeconds s) (OpenToCloseFailureRate s)
    (OpenToCloseCollectSeconds s) (BindClusters s) (httpClient s) (checkFailCount s)
    (prevStatus s) (useCheckDuration s) (circuit s) (lock s) (checkStopped s).

Definition set_HalfToOpenSucceedRate (v : Z) (s : Server) : Server :=
  Build_Server (Schema s) (Addr s) (External s) (CheckPath s) (CheckResponsedBody s)
    (CheckDuration s) (CheckTimeout s) (Status s) (MaxQPS s) (HalfToOpenSeconds s)
    (HalfTrafficRate s) v (HalfToOpenCollectSeconds s) (OpenToCloseFailureRate s)
    (OpenToCloseCollectSeconds s) (BindClusters s) (httpClient s) (checkFailCount s)
    (prevStatus s) (useCheckDuration s) (circuit s) (lock s) (checkStopped s).

Definition set_HalfToOpenCollectSeconds (v : Z) (s : Server) : Server :=
  Build_Server (Schema s) (Addr s) (External s) (CheckPath s) (CheckResponsedBody s)
    (CheckDuration s) (CheckTimeout s) (Status s) (MaxQPS s) (HalfToOpenSeconds s)
    (HalfTrafficRate s) (HalfToOpenSucceedRate s) v (OpenToCloseFailureRate s)
    (OpenToCloseCollectSeconds s) (BindClusters s) (httpClient s) (checkFailCount s)
    (prevStatus s) (useCheckDuration s) (circuit s) (lock s) (checkStopped s).

Definition set_OpenToCloseFailureRate (v : Z) (s : Server) : Server :=
  Build_Server (Schema s) (Addr s) (External s) (CheckPath s) (CheckResponsedBody s)
    (CheckDuration s) (CheckTimeout s) (Status s) (MaxQPS s) (HalfToOpenSeconds s)
    (HalfTrafficRate s) (HalfToOpenSucceedRate s) (HalfToOpenCollectSeconds s) v
    (OpenToCloseCollectSeconds s) (BindClusters s) (httpClient s) (checkFailCount s)
    (prevStatus s) (useCheckDuration s) (circuit s) (lock s) (checkStopped s).

Definition set_OpenToCloseCollectSeconds (v : Z) (s : Server) : Server :=
  Build_Server (Schema s) (Addr s) (External s) (CheckPath s) (CheckResponsedBody s)
    (CheckDuration s) (CheckTimeout s) (Status s) (MaxQPS s) (HalfToOpenSeconds s)
    (HalfTrafficRate s) (HalfToOpenSucceedRate s) (HalfToOpenCollectSeconds s)
    (OpenToCloseFailureRate s) v (BindClusters s) (httpClient s) (checkFailCount s)
    (prevStatus s) (useCheckDuration s) (circuit s) (lock s) (checkStopped s).

Definition set_BindClusters (v : list string) (s : Server) : Server :=
  Build_Server (Schema s) (Addr s) (External s) (CheckPath s) (CheckResponsedBody s)
    (CheckDuration s) (CheckTimeout s) (Status s) (MaxQPS s) (HalfToOpenSeconds s)
    (HalfTrafficRate s) (HalfToOpenSucceedRate s) (HalfToOpenCollectSeconds s)
    (OpenToCloseFailureRate s) (OpenToCloseCollectSeconds s) v (httpClient s)
    (checkFailCount s) (prevStatus s) (useCheckDuration s) (circuit s) (lock s)
    (checkStopped s).

Definition set_httpClient (v : option Z) (s : Server) : Server :=
  Build_Server (Schema s) (Addr s) (External s) (CheckPath s) (CheckResponsedBody s)
    (CheckDuration s) (CheckTimeout s) (Status s) (MaxQPS s) (HalfToOpenSeconds s)
    (HalfTrafficRate s) (HalfToOpenSucceedRate s) (HalfToOpenCollectSeconds s)
    (OpenToCloseFailureRate s) (OpenToCloseCollectSeconds s) (BindClusters s) v
    (checkFailCount s) (prevStatus s) (useCheckDuration s) (circuit s) (lock s)
    (checkStopped s).

Definition set_checkFailCount (v : Z) (s : Server) : Server :=
  Build_Server (Schema s) (Addr s) (External s) (CheckPath s) (CheckResponsedBody s)
    (CheckDuration s) (CheckTimeout s) (Status s) (MaxQPS s) (HalfToOpenSeconds s)
    (HalfTrafficRate s) (HalfToOpenSucceedRate s) (HalfToOpenCollectSeconds s)
    (OpenToCloseFailureRate s) (OpenToCloseCollectSeconds s) (BindClusters s)
    (httpClient s) v (prevStatus s) (useCheckDuration s) (circuit s) (lock s)
    (checkStopped s).

Definition set_prevStatus (v : StatusT) (s : Server) : Server :=
  Build_Server (Schema s) (Addr s) (External s) (CheckPath s) (CheckResponsedBody s)
    (CheckDuration s) (CheckTimeout s) (Status s) (MaxQPS s) (HalfToOpenSeconds s)
    (HalfTrafficRate s) (HalfToOpenSucceedRate s) (HalfToOpenCollectSeconds s)
    (OpenToCloseFailureRate s) (OpenToCloseCollectSeconds s) (BindClusters s)
    (httpClient s) (checkFailCount s) v (useCheckDuration s) (circuit s) (lock s)
    (checkStopped s).

Definition set_useCheckDuration (v : Z) (s : Server) : Server :=
  Build_Server (Schema s) (Addr s) (External s) (CheckPath s) (CheckResponsedBody s)
    (CheckDuration s) (CheckTimeout s) (Status s) (MaxQPS s) (HalfToOpenSeconds s)
    (HalfTrafficRate s) (HalfToOpenSucceedRate s) (HalfToOpenCollectSeconds s)
    (OpenToCloseFailureRate s) (OpenToCloseCollectSeconds s) (BindClusters s)
    (httpClient s) (checkFailCount s) (prevStatus s) v (circuit s) (lock s)
    (checkStopped s).

Definition set_circuit (v : CircuitT) (s : Server) : Server :=
  Build_Server (Schema s) (Addr s) (External s) (CheckPath s) (CheckResponsedBody s)
    (CheckDuration s) (CheckTimeout s) (Status s) (MaxQPS s) (HalfToOpenSeconds s)
    (HalfTrafficRate s) (HalfToOpenSucceedRate s) (HalfToOpenCollectSeconds s)
    (OpenToCloseFailureRate s) (OpenToCloseCollectSeconds s) (BindClusters s)
    (httpClient s) (checkFailCount s) (prevStatus s) (useCheckDuration s) v (lock s)
    (checkStopped s).

Definition set_lock (v : bool) (s : Server) : Server :=
  Build_Server (Schema s) (Addr s) (External s) (CheckPath s) (CheckResponsedBody s)
    (CheckDuration s) (CheckTimeout s) (Status s) (MaxQPS s) (HalfToOpenSeconds s)
    (HalfTrafficRate s) (HalfToOpenSucceedRate s) (HalfToOpenCollectSeconds s)
    (OpenToCloseFailureRate s) (OpenToCloseCollectSeconds s) (BindClusters s)
    (httpClient s) (checkFailCount s) (prevStatus s) (useCheckDuration s) (circuit s) v
    (checkStopped s).

Definition set_checkStopped (v : bool) (s : Server) : Server :=
  Build_Server (Schema s) (Addr s) (External s) (CheckPath s) (CheckResponsedBody s)
    (CheckDuration s) (CheckTimeout s) (Status s) (MaxQPS s) (HalfToOpenSeconds s)
    (HalfTrafficRate s) (HalfToOpenSucceedRate s) (HalfToOpenCollectSeconds s)
    (OpenToCloseFailureRate s) (OpenToCloseCollectSeconds s) (BindClusters s)
    (httpClient s) (checkFailCount s) (prevStatus s) (useCheckDuration s) (circuit s)
    (lock s) v.

(** [&Server{}]: every field at its zero value. *)
Definition zeroServer : Server :=
  Build_Server "" "" false "" "" 0 0 0 0 0 0 0 0 0 0 [] None 0 0 0 0 false false.

Definition OpenCircuit (s : Server) : Server := set_circuit CircuitOpen s.
Definition CloseCircuit (s : Server) : Server := set_circuit CircuitClose s.
Definition HalfCircuit (s : Server) : Server := set_circuit CircuitHalf s.
Definition GetCircuit (s : Server) : CircuitT := circuit s.

Definition getCheckTimeout (s : Server) : Z :=
  if CheckTimeout s =? 0 then DefaultCheckTimeoutInSeconds else CheckTimeout s.

(** [Server.init]. *)
Definition init (s : Server) : Server :=
  let s := set_httpClient (Some (wrap (Second * getCheckTimeout s))) s in
  let s := set_circuit CircuitOpen s in
  let s := set_lock true s in
  set_checkStopped false s.

Definition stopCheck (s : Server) : Server := set_checkStopped true s.

(** [Server.fail]: [checkFailCount++; useCheckDuration += useCheckDuration / 2]. *)
Definition fail (s : Server) : Server :=
  let s := set_checkFailCount (wrap (checkFailCount s + 1)) s in
  set_useCheckDuration (wrap (useCheckDuration s + useCheckDuration s ÷ 2)) s.

(** [Server.reset]. *)
Definition reset (s : Server) : Server :=
  let s := set_checkFailCount 0 s in
  set_useCheckDuration (CheckDuration s) s.

(** [Server.changeTo]. *)
Definition changeTo (status : StatusT) (s : Server) : Server :=
  let s := set_prevStatus (Status s) s in
  set_Status status s.

(** [Server.statusChanged]. *)
Definition statusChanged (s : Server) : bool := negb (prevStatus s =? Status s).

(** What the probe [s.httpClient.Get(s.getCheckURL())] came back with: a
    transport error, or a response with its status code and its body
    ([None] when reading the body fails). *)
Inductive ProbeResult : Type :=
| ProbeErr
| ProbeResp (statusCode : Z) (body : option string).

Definition StatusOK : Z := 200.

(** The value of [succ] when [Server.check] returns; it is also the value
    returned on every path. *)
Definition check_succ (s : Server) (p : ProbeResult) : bool :=
  match p with
  | ProbeErr => false
  | ProbeResp code body =>
      if negb (code =? StatusOK) then false
      else if String.eqb (CheckResponsedBody s) "" then true
      else match body with
           | None => false
           | Some b => String.eqb b (CheckResponsedBody s)
           end
  end.

(** [Server.check]: the deferred function resets or fails the server
    according to [succ].  A nil [httpClient] makes [Get] panic. *)
Definition Server_check (s : Server) (p : ProbeResult) : outcome (bool * Server) :=
  match httpClient s with
  | None => Panic
  | Some _ =>
      let succ := check_succ s p in
      Done (succ, if succ then reset s else fail s)
  end.

(** [n] consecutive failures. *)
Definition fails (n : nat) (s : Server) : Server := Nat.iter n fail s.

(** ** Entities of the route table *)

(** A node of an API ([api.go], of which only the fields the route table
    and the proxy read are known). *)
Record Node : Type := Build_Node {
  ClusterName : string;
  Rewrite : string;
  AttrName : string
}.

(** An API.  [Mock] is the mock response of the API, when it has one. *)
Record API : Type := Build_API {
  URL : string;
  Method : string;
  Nodes : list Node;
  Mock : option string
}.

(** A routing; its field [ClusterName] is [RoutingClusterName] here. *)
Record Routing : Type := Build_Routing {
  ID : string;
  RoutingClusterName : string;
  Cfg : string
}.

(** Modelled from the spec: the [Cluster] struct (cluster.go is not among
    the sources): [{name, loadBalanceStrategy, activeServers[]}], where
    [activeServers] holds the addresses of the bound servers that are up. *)
Record Cluster : Type := Build_Cluster {
  Name : string;
  loadBalanceStrategy : string;
  activeServers : list string
}.

Definition set_activeServers (v : list string) (c : Cluster) : Cluster :=
  Build_Cluster (Name c) (loadBalanceStrategy c) v.

(** Modelled from the spec: [Cluster.unbind] (and [Cluster.doUnBind], the
    same without taking the cluster's lock) removes the server from the
    active servers of the cluster. *)
Definition Cluster_unbind (addr : string) (c : Cluster) : Cluster :=
  set_activeServers (filter (fun a => a ≠ addr) (activeServers c)) c.

(** Modelled from the spec: [Cluster.bind] makes the server an active
    server of the cluster, once. *)
Definition Cluster_bind (addr : string) (c : Cluster) : Cluster :=
  set_activeServers (filter (fun a => a ≠ addr) (activeServers c) ++ [addr]) c.

(** A backend response ([fasthttp.Response]): status code, header fields
    in canonical spelling (content type, content length and date among
    them), body. *)
Definition ResponseHeader : Type := list (string * string).

Record Response : Type := Build_Response {
  StatusCode : Z;
  Header : ResponseHeader;
  Body : string
}.

(** [RouteResult]; its fields [API] and [Node] are [RAPI] and [RNode]
    here.  [Node] and [Svr] are pointers that may be nil; [Svr] points
    into the store of server objects. *)
Record RouteResult : Type := Build_RouteResult {
  RAPI : API;
  RNode : option Node;
  Svr : option loc;
  Err : option error;
  Code : Z;
  Res : option Response;
  Merge : bool
}.

Definition set_Err (v : option error) (x : RouteResult) : RouteResult :=
  Build_RouteResult (RAPI x) (RNode x) (Svr x) v (Code x) (Res x) (Merge x).
Definition set_Code (v : Z) (x : RouteResult) : RouteResult :=
  Build_RouteResult (RAPI x) (RNode x) (Svr x) (Err x) v (Res x) (Merge x).
Definition set_Res (v : option Response) (x : RouteResult) : RouteResult :=
  Build_RouteResult (RAPI x) (RNode x) (Svr x) (Err x) (Code x) v (Merge x).
Definition set_Merge (v : bool) (x : RouteResult) : RouteResult :=
  Build_RouteResult (RAPI x) (RNode x) (Svr x) (Err x) (Code x) (Res x) v.

(** [RouteResult.NeedRewrite]. *)
Definition NeedRewrite (x : RouteResult) : bool :=
  match RNode x with
  | Some node => negb (String.eqb (Rewrite node) "")
  | None => false
  end.

Definition ErrServerExists : error := "Server already exist".
Definition ErrClusterExists : error := "Cluster already exist".
Definition ErrBindExists : error := "Bind already exist".
Definition ErrAPIExists : error := "API already exist".
Definition ErrRoutingExists : error := "Routing already exist".
Definition ErrServerNotFound : error := "Server not found".
Definition ErrClusterNotFound : error := "Cluster not found".
Definition ErrBindNotFound : error := "Bind not found".
Definition ErrAPINotFound : error := "API not found".
Definition ErrRoutingNotFound : error := "Routing not found".

(** ** Go maps whose iteration order matters *)

Section AList.
Context {V : Type}.

(** [m[k]]. *)
Fixpoint alookup (k : string) (m : list (string * V)) : option V :=
  match m with
  | [] => None
  | (k', v) :: m' => if String.eqb k k' then Some v else alookup k m'
  end.

(** [delete(m, k)]. *)
Fixpoint adelete (k : string) (m : list (string * V)) : list (string * V) :=
  match m with
  | [] => []
  | (k', v) :: m' => if String.eqb k k' then adelete k m' else (k', v) :: adelete k m'
  end.

(** [m[k] = v]: the entry of [k] is replaced, or a new entry is added. *)
Fixpoint ainsert (k : string) (v : V) (m : list (string * V)) : list (string * V) :=
  match m with
  | [] => [(k, v)]
  | (k', v') :: m' => if String.eqb k k' then (k, v) :: adelete k m' else (k', v') :: ainsert k v m'
  end.
End AList.

(** ** The parts of the repository the route table calls but that are not
    among the sources: the matcher and the key of an API ([api.matches],
    [api.Parse], [getAPIKey]), the matcher of a routing
    ([routing.Matches], [routing.Check]) and the choice of the load
    balancer.  They are parameters of the development. *)
Class ModelEnv (Request : Type) : Type := {
  api_matches : API -> Request -> bool;
  api_Parse : API -> API;
  getAPIKey : string -> string -> string;
  routing_Matches : Routing -> Request -> bool;
  routing_Check : Routing -> option error;
  (** the index the load-balance strategy of a cluster picks among the
      active servers (round-robin state and randomness are the caller's) *)
  lb_Select : Request -> Cluster -> nat
}.

(** Modelled from the spec: [Cluster.Select] (cluster.go is not among the
    sources) takes the cluster's own lock and returns the address of an
    active server, picked by the load-balance strategy, and the empty
    address when the cluster has no active server.  The method reads its
    receiver (its lock, its active servers): called on a nil [*Cluster],
    which is what the cluster map gives for a name it does not hold, it
    dereferences a nil pointer, and Go panics. *)
Definition Cluster_Select {Request : Type} {M : ModelEnv Request}
    (req : Request) (c : option Cluster) : outcome string :=
  match c with
  | None => Panic
  | Some c =>
      Done match activeServers c with
           | [] => ""
           | _ :: _ =>
               nth (lb_Select req c mod length (activeServers c))%nat (activeServers c) ""
           end
  end.

(** ** routetable.go *)

(** The route table, with the objects its pointers refer to: [svr_store]
    holds the [Server] objects and [cluster_store] the [Cluster] objects.
    [tw] is the time wheel: the pending timers by key, each with its delay
    (adding under a key replaces the timer of that key).  [evtChan] is the
    content of the channel, oldest first.  [analysiser] is, modelled from
    the spec (analysis.go is not among the sources), the windows
    registered for each server. *)
Record RouteTable : Type := Build_RouteTable {
  svr_store : gmap loc Server;
  cluster_store : gmap loc Cluster;
  clusters : gmap string loc;
  svrs : gmap string loc;
  mapping : gmap string (gmap string loc);
  apis : list (string * API);
  routings : list (string * Routing);
  tw : gmap string Z;
  evtChan : list loc;
  analysiser : gmap string (list Z)
}.

Definition set_svr_store (v : gmap loc Server) (r : RouteTable) : RouteTable :=
  Build_RouteTable v (cluster_store r) (clusters r) (svrs r) (mapping r) (apis r)
    (routings r) (tw r) (evtChan r) (analysiser r).

Definition set_cluster_store (v : gmap loc Cluster) (r : RouteTable) : RouteTable :=
  Build_RouteTable (svr_store r) v (clusters r) (svrs r) (mapping r) (apis r)
    (routings r) (tw r) (evtChan r) (analysiser r).

Definition set_clusters (v : gmap string loc) (r : RouteTable) : RouteTable :=
  Build_RouteTable (svr_store r) (cluster_store r) v (svrs r) (mapping r) (apis r)
    (routings r) (tw r) (evtChan r) (analysiser r).

Definition set_svrs (v : gmap string loc) (r : RouteTable) : RouteTable :=
  Build_RouteTable (svr_store r) (cluster_store r) (clusters r) v (mapping r) (apis r)
    (routings r) (tw r) (evtChan r) (analysiser r).

Definition set_mapping (v : gmap string (gmap string loc)) (r : RouteTable) : RouteTable :=
  Build_RouteTable (svr_store r) (cluster_store r) (clusters r) (svrs r) v (apis r)
    (routings r) (tw r) (evtChan r) (analysiser r).

Definition set_apis (v : list (string * API)) (r : RouteTable) : RouteTable :=
  Build_RouteTable (svr_store r) (cluster_store r) (clusters r) (svrs r) (mapping r) v
    (routings r) (tw r) (evtChan r) (analysiser r).

Definition set_routings (v : list (string * Routing)) (r : RouteTable) : RouteTable :=
  Build_RouteTable (svr_store r) (cluster_store r) (clusters r) (svrs r) (mapping r)
    (apis r) v (tw r) (evtChan r) (analysiser r).

Definition set_tw (v : gmap string Z) (r : RouteTable) : RouteTable :=
  Build_RouteTable (svr_store r) (cluster_store r) (clusters r) (svrs r) (mapping r)
    (apis r) (routings r) v (evtChan r) (analysiser r).

Definition set_evtChan (v : list loc) (r : RouteTable) : RouteTable :=
  Build_RouteTable (svr_store r) (cluster_store r) (clusters r) (svrs r) (mapping r)
    (apis r) (routings r) (tw r) v (analysiser r).

Definition set_analysiser (v : gmap string (list Z)) (r : RouteTable) : RouteTable :=
  Build_RouteTable (svr_store r) (cluster_store r) (clusters r) (svrs r) (mapping r)
    (apis r) (routings r) (tw r) (evtChan r) v.

(** [NewRouteTable]: empty maps, an empty channel. *)
Definition NewRouteTable : RouteTable :=
  Build_RouteTable ∅ ∅ ∅ ∅ ∅ [] [] ∅ [] ∅.

(** Dereferencing a [*Server]; a pointer without an object is nil. *)
Definition deref_svr (p : loc) (r : RouteTable) : outcome Server :=
  match svr_store r !! p with
  | Some s => Done s
  | None => Panic
  end.

(** Writing through a [*Server]. *)
Definition store_svr (p : loc) (s : Server) (r : RouteTable) : RouteTable :=
  set_svr_store (<[p := s]> (svr_store r)) r.

Definition deref_cluster (p : loc) (r : RouteTable) : outcome Cluster :=
  match cluster_store r !! p with
  | Some c => Done c
  | None => Panic
  end.

(** A method that updates the cluster object a pointer refers to. *)
Definition update_cluster (f : Cluster -> Cluster) (r : RouteTable) (p : loc) : RouteTable :=
  set_cluster_store (alter f p (cluster_store r)) r.

(** [for _, c := range binded { c.m(svr) }]: the same update on every
    cluster of [binded]. *)
Definition range_binded (f : Cluster -> Cluster) (binded : gmap string loc)
    (r : RouteTable) : RouteTable :=
  foldl (update_cluster f) r (map_to_list binded).*2.

(** Modelled from the spec: [Analysis.addNewAnalysis] opens the state of a
    server in the analyzer. *)
Definition addNewAnalysis (addr : string) (a : gmap string (list Z)) : gmap string (list Z) :=
  <[addr := []]> a.

(** Modelled from the spec: [Analysis.AddRecentCount] registers a window
    of [secs] seconds for a server the analyzer knows. *)
Definition AddRecentCount (addr : string) (secs : Z) (a : gmap string (list Z))
    : gmap string (list Z) :=
  alter (fun ws : list Z => if bool_decide (secs ∈ ws) then ws else (ws ++ [secs])%list) addr a.

(** [GetServer]. *)
Definition GetServer (addr : string) (r : RouteTable) : option loc := svrs r !! addr.

(** [removeFromCheck]: [r.tw.Cancel(svr.Addr)]. *)
Definition removeFromCheck (svr : Server) (r : RouteTable) : RouteTable :=
  set_tw (delete (Addr svr) (tw r)) r.

(** [addToCheck]: probe the server, record the outcome in its status, and
    schedule the next check under the server's address. *)
Definition addToCheck (p : loc) (probe : ProbeResult) (r : RouteTable) : outcome RouteTable :=
  svr ← deref_svr p r;
  '(ok, svr) ← Server_check svr probe;
  let svr := if ok : bool then changeTo Up svr else changeTo Down svr in
  let r := store_svr p svr r in
  Done (set_tw (<[Addr svr := wrap (useCheckDuration svr * Second)]> (tw r)) r).

(** [check]: the function the time wheel calls.  The server is sent to the
    channel on every call (a send on a full channel waits for the worker;
    the channel is unbounded here). *)
Definition check (addr : string) (probe : ProbeResult) (r : RouteTable) : outcome RouteTable :=
  match svrs r !! addr with
  | None => Panic
  | Some p =>
      svr ← deref_svr p r;
      r ← (if negb (checkStopped svr) then addToCheck p probe r else Done r);
      Done (set_evtChan (evtChan r ++ [p])%list r)
  end.

(** One turn of the loop of [changed]: [None] when the channel is empty
    (the worker waits). *)
Definition changed (r : RouteTable) : option (outcome RouteTable) :=
  match evtChan r with
  | [] => None
  | p :: rest =>
      let r := set_evtChan rest r in
      Some (svr ← deref_svr p r;
            if statusChanged svr then
              let binded := default ∅ (mapping r !! Addr svr) in
              if Status svr =? Up
              then Done (range_binded (Cluster_bind (Addr svr)) binded r)
              else Done (range_binded (Cluster_unbind (Addr svr)) binded r)
            else Done r)
  end.

(** [AddNewCluster]; the argument is a pointer to the cluster object. *)
Definition AddNewCluster (p : loc) (r : RouteTable) : outcome (option error * RouteTable) :=
  cluster ← deref_cluster p r;
  match clusters r !! Name cluster with
  | Some _ => Done (Some ErrClusterExists, r)
  | None => Done (None, set_clusters (<[Name cluster := p]> (clusters r)) r)
  end.

(** [DeleteServer]. *)
Definition DeleteServer (serverAddr : string) (r : RouteTable)
    : outcome (option error * RouteTable) :=
  match svrs r !! serverAddr with
  | None => Done (Some ErrServerNotFound, r)
  | Some p =>
      let r := set_svrs (delete serverAddr (svrs r)) r in
      svr ← deref_svr p r;
      let svr := stopCheck svr in
      let r := store_svr p svr r in
      let r := removeFromCheck svr r in
      let binded := default ∅ (mapping r !! Addr svr) in
      let r := set_mapping (delete (Addr svr) (mapping r)) r in
      let r := range_binded (Cluster_unbind (Addr svr)) binded r in
      Done (None, r)
  end.

(** [AddNewServer]; the argument is a pointer to the server object, and
    [probe] is what the first health check of a server that is not
    external comes back with. *)
Definition AddNewServer (p : loc) (probe : ProbeResult) (r : RouteTable)
    : outcome (option error * RouteTable) :=
  svr ← deref_svr p r;
  match svrs r !! Addr svr with
  | Some _ => Done (Some ErrServerExists, r)
  | None =>
      let svr := set_prevStatus Down svr in
      let svr := set_Status Down svr in
      let svr := set_useCheckDuration (CheckDuration svr) svr in
      let r := set_svrs (<[Addr svr := p]> (svrs r)) r in
      let r := set_mapping (<[Addr svr := ∅]> (mapping r)) r in
      let svr := init svr in
      let r := store_svr p svr r in
      r ← (if negb (External svr) then addToCheck p probe r
           else Done (store_svr p (changeTo Up svr) r));
      let a := addNewAnalysis (Addr svr) (analysiser r) in
      let a := AddRecentCount (Addr svr) 1 a in
      let a := if 0 <? OpenToCloseCollectSeconds svr
               then AddRecentCount (Addr svr) (OpenToCloseCollectSeconds svr) a else a in
      let a := if 0 <? HalfToOpenCollectSeconds svr
               then AddRecentCount (Addr svr) (HalfToOpenCollectSeconds svr) a else a in
      Done (None, set_analysiser a r)
  end.

(** [Bind].  Writing into the nil map of a server without an entry in
    [mapping] panics. *)
Definition Bind (svrAddr clusterName : string) (r : RouteTable)
    : outcome (option error * RouteTable) :=
  match svrs r !! svrAddr with
  | None => Done (Some ErrServerNotFound, r)
  | Some ps =>
      match clusters r !! clusterName with
      | None => Done (Some ErrClusterNotFound, r)
      | Some pc =>
          svr ← deref_svr ps r;
          cluster ← deref_cluster pc r;
          let binded := mapping r !! Addr svr in
          bound ← match default ∅ binded !! Name cluster with
                  | Some pb => bindCluster ← deref_cluster pb r;
                               Done (String.eqb (Name bindCluster) clusterName)
                  | None => Done false
                  end;
          if bound : bool then Done (Some ErrBindExists, r)
          else match binded with
               | None => Panic
               | Some b =>
                   let r := set_mapping (<[Addr svr := <[Name cluster := pc]> b]> (mapping r)) r in
                   let r := if Status svr =? Up
                            then update_cluster (Cluster_bind (Addr svr)) r pc else r in
                   Done (None, r)
               end
      end
  end.

(** [doUnBind]. *)
Definition doUnBind (svr : Server) (pc : loc) (cluster : Cluster) (r : RouteTable) : RouteTable :=
  match mapping r !! Addr svr with
  | Some binded =>
      let r := set_mapping (<[Addr svr := delete (Name cluster) binded]> (mapping r)) r in
      update_cluster (Cluster_unbind (Addr svr)) r pc
  | None => r
  end.

(** [UnBind]. *)
Definition UnBind (svrAddr clusterName : string) (r : RouteTable)
    : outcome (option error * RouteTable) :=
  match svrs r !! svrAddr with
  | None => Done (Some ErrServerNotFound, r)
  | Some ps =>
      match clusters r !! clusterName with
      | None => Done (Some ErrClusterNotFound, r)
      | Some pc =>
          svr ← deref_svr ps r;
          cluster ← deref_cluster pc r;
          Done (None, doUnBind svr pc cluster r)
      end
  end.

Section WithModelEnv.
Context {Request : Type} {M : ModelEnv Request}.

(** [AddNewRouting]. *)
Definition AddNewRouting (routing : Routing) (r : RouteTable) : option error * RouteTable :=
  match routing_Check routing with
  | Some err => (Some err, r)
  | None =>
      match alookup (ID routing) (routings r) with
      | Some _ => (Some ErrRoutingExists, r)
      | None => (None, set_routings (ainsert (ID routing) routing (routings r)) r)
      end
  end.

(** [DeleteRouting]. *)
Definition DeleteRouting (id : string) (r : RouteTable) : option error * RouteTable :=
  match alookup id (routings r) with
  | None => (Some ErrRoutingNotFound, r)
  | Some _ => (None, set_routings (adelete id (routings r)) r)
  end.

(** [AddNewAPI]: the presence test reads [r.apis[api.URL]], the entry is
    written under [getAPIKey(api.URL, api.Method)]. *)
Definition AddNewAPI (api : API) (r : RouteTable) : option error * RouteTable :=
  match alookup (URL api) (apis r) with
  | Some _ => (Some ErrAPIExists, r)
  | None =>
      let api := api_Parse api in
      (None, set_apis (ainsert (getAPIKey (URL api) (Method api)) api (apis r)) r)
  end.

(** [UpdateAPI]. *)
Definition UpdateAPI (api : API) (r : RouteTable) : option error * RouteTable :=
  match alookup (getAPIKey (URL api) (Method api)) (apis r) with
  | None => (Some ErrAPINotFound, r)
  | Some _ =>
      (None, set_apis (ainsert (getAPIKey (URL api) (Method api)) (api_Parse api) (apis r)) r)
  end.

(** [DeleteAPI]. *)
Definition DeleteAPI (url method : string) (r : RouteTable) : option error * RouteTable :=
  match alookup (getAPIKey url method) (apis r) with
  | None => (Some ErrAPINotFound, r)
  | Some _ => (None, set_apis (adelete (getAPIKey url method) (apis r)) r)
  end.

(** The loop of [selectClusterByRouting] over the routings still to
    visit: the first routing that matches replaces the target. *)
Fixpoint range_routings (req : Request) (r : RouteTable)
    (todo : list (string * Routing)) (targetCluster : option loc) : option loc :=
  match todo with
  | [] => targetCluster
  | (_, routing) :: todo' =>
      if routing_Matches routing req
      then clusters r !! RoutingClusterName routing
      else range_routings req r todo' targetCluster
  end.

(** [selectClusterByRouting]; a nil [*Cluster] is [None]. *)
Definition selectClusterByRouting (req : Request) (src : option loc) (r : RouteTable)
    : option loc :=
  range_routings req r (routings r) src.

(** [doSelectServer]: [svr, _ := r.svrs[cluster.Select(req)]]; the call
    of [cluster.Select] is made on whatever pointer it is given. *)
Definition doSelectServer (req : Request) (cluster : option loc) (r : RouteTable)
    : outcome (option loc) :=
  addr ← Cluster_Select req (cluster ≫= (fun p => cluster_store r !! p));
  Done (svrs r !! addr).

Definition selectServer (req : Request) (cluster : option loc) (r : RouteTable)
    : outcome (option loc) :=
  doSelectServer req cluster r.

(** The loop of [Select] over the nodes of an API that matches: one
    result per node, in the order of the nodes. *)
Fixpoint range_nodes (req : Request) (r : RouteTable) (api : API) (nodes : list Node)
    : outcome (list RouteResult) :=
  match nodes with
  | [] => Done []
  | node :: nodes' =>
      svr ← selectServer req
              (selectClusterByRouting req (clusters r !! ClusterName node) r) r;
      results ← range_nodes req r api nodes';
      Done (Build_RouteResult api (Some node) svr None 0 None false :: results)
  end.

(** The results [Select] builds for an API that matches. *)
Definition results_of (req : Request) (r : RouteTable) (api : API)
    : outcome (list RouteResult) :=
  range_nodes req r api (Nodes api).

(** The loop of [Select] over the APIs still to visit; the loop has no
    [break]: every API that matches assigns [results] anew. *)
Fixpoint range_apis (req : Request) (r : RouteTable)
    (todo : list (string * API)) (results : option (list RouteResult))
    : outcome (option (list RouteResult)) :=
  match todo with
  | [] => Done results
  | (_, api) :: todo' =>
      results ← (if api_matches api req
                 then rs ← results_of req r api; Done (Some rs)
                 else Done results);
      range_apis req r todo' results
  end.

(** [Select]; a nil slice is [None]. *)
Definition Select (req : Request) (r : RouteTable) : outcome (option (list RouteResult)) :=
  range_apis req r (apis r) None.
End WithModelEnv.

(** ** proxy.go *)

Definition ErrPrefixRequestCancel : string := "request canceled".
Definition ErrNoServer : error := "has no server".
Definition ErrRewriteNotMatch : error := "rewrite not match request url".

Definition MergeContentType : string := "application/json; charset=utf-8".
Definition MergeRemoveHeaders : list string := ["Content-Length"; "Content-Type"; "Date"].

Definition StatusBadRequest : Z := 400.
Definition StatusNotFound : Z := 404.
Definition StatusInternalServerError : Z := 500.
Definition StatusServiceUnavailable : Z := 503.

(** The string made of one double quote. *)
Definition quote : string := String "034"%char EmptyString.

(** [strings.HasPrefix]. *)
Definition HasPrefix (s prefix : string) : bool := String.prefix prefix s.

(** [ResponseHeader.Del]: no field of that name is left. *)
Definition Header_Del (key : string) (h : ResponseHeader) : ResponseHeader :=
  filter (fun kv => kv.1 ≠ key) h.

(** [ResponseHeader.SetContentType]. *)
Definition Header_SetContentType (v : string) (h : ResponseHeader) : ResponseHeader :=
  ("Content-Type", v) :: Header_Del "Content-Type" h.

(** [ResponseHeader.CopyTo] of the HTTP library (fasthttp), [src.CopyTo(dst)]
    giving the new [dst]: the destination is reset, then the fields of
    the source are copied into it, so that the destination becomes a copy
    of the source and keeps nothing of what it held.  (The status code,
    which the library keeps with the header, is copied as well; the
    handler sets it anew after its copies.) *)
Definition Header_CopyTo (src dst : ResponseHeader) : ResponseHeader := src.

(** The value of a header field. *)
Definition Header_Peek (key : string) (h : ResponseHeader) : option string := alookup key h.

(** [fasthttp.RequestCtx]: the request and the response under
    construction. *)
Record RequestCtx (Request : Type) : Type := Build_RequestCtx {
  ctx_Request : Request;
  ctx_Response : Response
}.
Arguments Build_RequestCtx {Request} _ _.
Arguments ctx_Request {Request} _.
Arguments ctx_Response {Request} _.

Definition set_Response {Request : Type} (v : Response) (ctx : RequestCtx Request)
    : RequestCtx Request :=
  Build_RequestCtx (ctx_Request ctx) v.

(** [ctx.SetStatusCode]. *)
Definition SetStatusCode {Request : Type} (code : Z) (ctx : RequestCtx Request)
    : RequestCtx Request :=
  set_Response (Build_Response code (Header (ctx_Response ctx)) (Body (ctx_Response ctx))) ctx.

(** [ctx.WriteString] and [ctx.Write]: the bytes are appended to the body. *)
Definition WriteString {Request : Type} (s : string) (ctx : RequestCtx Request)
    : RequestCtx Request :=
  set_Response (Build_Response (StatusCode (ctx_Response ctx)) (Header (ctx_Response ctx))
                  (Body (ctx_Response ctx) ++ s)) ctx.

Definition set_ctx_Header {Request : Type} (h : ResponseHeader) (ctx : RequestCtx Request)
    : RequestCtx Request :=
  set_Response (Build_Response (StatusCode (ctx_Response ctx)) h (Body (ctx_Response ctx))) ctx.

(** The context handed to the filters ([newContext]). *)
Record context (Request : Type) : Type := Build_context {
  c_rt : RouteTable;
  c_ctx : RequestCtx Request;
  c_outreq : Request;
  c_result : RouteResult;
  c_startAt : Z;
  c_endAt : Z
}.
Arguments Build_context {Request} _ _ _ _ _ _.
Arguments c_rt {Request} _.
Arguments c_ctx {Request} _.
Arguments c_outreq {Request} _.
Arguments c_result {Request} _.
Arguments c_startAt {Request} _.
Arguments c_endAt {Request} _.

Definition newContext {Request : Type} (r : RouteTable) (ctx : RequestCtx Request)
    (outreq : Request) (result : RouteResult) : context Request :=
  Build_context r ctx outreq result 0 0.

Definition SetStartAt {Request : Type} (t : Z) (c : context Request) : context Request :=
  Build_context (c_rt c) (c_ctx c) (c_outreq c) (c_result c) t (c_endAt c).
Definition SetEndAt {Request : Type} (t : Z) (c : context Request) : context Request :=
  Build_context (c_rt c) (c_ctx c) (c_outreq c) (c_result c) (c_startAt c) t.
Definition set_c_result {Request : Type} (x : RouteResult) (c : context Request)
    : context Request :=
  Build_context (c_rt c) (c_ctx c) (c_outreq c) x (c_startAt c) (c_endAt c).

(** What the proxy calls outside of proxy.go: the request operations of
    the HTTP library, the filter chain, the backend client, the mock
    renderer and the clock.  [W] is the state
    these act on (counters of the analyzer, rate limiters, the backends,
    the time).  The filters receive the context and may change the
    outgoing request and the result it holds. *)
Class ProxyEnv (Request W : Type) : Type := {
  copyRequest : Request -> Request;
  SetRequestURI : string -> Request -> Request;
  SetHost : string -> Request -> Request;
  getNodeURL : API -> Request -> Node -> string;
  doPreFilters : context Request -> W -> string * Z * option error * context Request * W;
  doPostFilters : context Request -> W -> string * Z * option error * context Request * W;
  doPostErrFilters : context Request -> W -> context Request * W;
  (** [p.getClient(addr).Do(outreq, addr)] *)
  client_Do : Request -> string -> W -> option Response * option error * W;
  RenderMock : API -> RequestCtx Request -> RequestCtx Request;
  UnixNano : W -> Z
}.

Section Proxy.
Context {Request W : Type} {M : ModelEnv Request} {E : ProxyEnv Request W}.

(** [RouteResult.GetRewritePath]. *)
Definition GetRewritePath (x : RouteResult) (req : Request) : string :=
  match RNode x with
  | Some node => getNodeURL (RAPI x) req node
  | None => ""
  end.

(** The part of [doProxy] that prepares the outgoing request: [None]
    when the rewrite pattern of the node does not match. *)
Definition rewriteRequest (ctx : RequestCtx Request) (result : RouteResult) (svr : Server)
    : option Request :=
  let outreq := copyRequest (ctx_Request ctx) in
  if NeedRewrite result then
    let realPath := GetRewritePath result (ctx_Request ctx) in
    if negb (String.eqb "" realPath)
    then Some (SetHost (Addr svr) (SetRequestURI realPath outreq))
    else None
  else Some outreq.

(** The part of [doProxy] after the backend call. *)
Definition afterBackend (c : context Request) (res : option Response) (err : option error)
    (w : W) : outcome (RouteResult * W) :=
  let c := set_c_result (set_Res res (c_result c)) c in
  failed ← match err, res with
           | Some _, _ => Done true
           | None, Some res => Done (StatusInternalServerError <=? StatusCode res)
           | None, None => Panic
           end;
  if failed : bool then
    let resCode := match err, res with
                   | None, Some res => StatusCode res
                   | _, _ => StatusServiceUnavailable
                   end in
    let '(c, w) := match err with
                   | Some e => if negb (HasPrefix e ErrPrefixRequestCancel)
                               then doPostErrFilters c w else (c, w)
                   | None => doPostErrFilters c w
                   end in
    Done (set_Code resCode (set_Err err (c_result c)), w)
  else
    let '(filterName, code, err, c, w) := doPostFilters c w in
    match err with
    | Some e => Done (set_Code code (set_Err (Some e) (c_result c)), w)
    | None => Done (c_result c, w)
    end.

(** [doProxy]: the result it leaves behind its pointer, and the state. *)
Definition doProxy (ctx : RequestCtx Request) (result : RouteResult) (r : RouteTable) (w : W)
    : outcome (RouteResult * W) :=
  match Svr result with
  | None =>
      Done (set_Code StatusServiceUnavailable (set_Err (Some ErrNoServer) result), w)
  | Some p =>
      svr ← deref_svr p r;
      match rewriteRequest ctx result svr with
      | None => Done (set_Code StatusBadRequest (set_Err (Some ErrRewriteNotMatch) result), w)
      | Some outreq =>
          let c := newContext r ctx outreq result in
          let '(filterName, code, err, c, w) := doPreFilters c w in
          match err with
          | Some e => Done (set_Code code (set_Err (Some e) (c_result c)), w)
          | None =>
              let c := SetStartAt (UnixNano w) c in
              let '(res, err, w) := client_Do (c_outreq c) (Addr svr) w in
              let c := SetEndAt (UnixNano w) c in
              afterBackend c res err w
          end
      end
  end.

(** The tasks of a merge request, one per result, each on its own
    result; they are run here one after the other, in the order of the
    results. *)
Fixpoint doProxy_each (ctx : RequestCtx Request) (results : list RouteResult)
    (r : RouteTable) (w : W) : outcome (list RouteResult * W) :=
  match results with
  | [] => Done ([], w)
  | x :: rest =>
      '(x', w) ← doProxy ctx (set_Merge true x) r w;
      '(rest', w) ← doProxy_each ctx rest r w;
      Done (x' :: rest', w)
  end.

(** [writeResult]. *)
Definition writeResult (ctx : RequestCtx Request) (res : option Response)
    : outcome (RequestCtx Request) :=
  match res with
  | None => Panic
  | Some res => Done (WriteString (Body res) (SetStatusCode (StatusCode res) ctx))
  end.

(** The first loop over the results: [Some] when the handler returns
    from inside the loop. *)
Fixpoint range_errors (merge : bool) (ctx : RequestCtx Request) (results : list RouteResult)
    : option (outcome (RequestCtx Request)) :=
  match results with
  | [] => None
  | x :: rest =>
      match Err x with
      | Some _ =>
          match Mock (RAPI x) with
          | Some _ => Some (Done (RenderMock (RAPI x) ctx))
          | None => Some (Done (SetStatusCode (Code x) ctx))
          end
      | None =>
          if negb merge then Some (writeResult ctx (Res x))
          else range_errors merge ctx rest
      end
  end.

(** The header of a backend response once the fields of
    [MergeRemoveHeaders] are deleted from it. *)
Definition strip_headers (h : ResponseHeader) : ResponseHeader :=
  foldl (fun h key => Header_Del key h) h MergeRemoveHeaders.

(** The second loop: strip each backend response, then copy its header
    into the response of the context. *)
Fixpoint range_headers (ctx : RequestCtx Request) (results : list RouteResult)
    : outcome (RequestCtx Request) :=
  match results with
  | [] => Done ctx
  | x :: rest =>
      match Res x with
      | None => Panic
      | Some res =>
          let h := strip_headers (Header res) in
          range_headers (set_ctx_Header (Header_CopyTo h (Header (ctx_Response ctx))) ctx) rest
      end
  end.

(** The third loop: the members of the JSON object. *)
Fixpoint range_write (count : nat) (index : nat) (ctx : RequestCtx Request)
    (results : list RouteResult) : outcome (RequestCtx Request) :=
  match results with
  | [] => Done ctx
  | x :: rest =>
      match RNode x, Res x with
      | Some node, Some res =>
          let ctx := WriteString quote ctx in
          let ctx := WriteString (AttrName node) ctx in
          let ctx := WriteString (quote ++ ":") ctx in
          let ctx := WriteString (Body res) ctx in
          let ctx := if (index <? count - 1)%nat then WriteString "," ctx else ctx in
          range_write count (S index) ctx rest
      | _, _ => Panic
      end
  end.

(** [ReverseProxyHandler]. *)
Definition ReverseProxyHandler (stopped : bool) (ctx : RequestCtx Request)
    (r : RouteTable) (w : W) : outcome (RequestCtx Request * W) :=
  if stopped then Done (SetStatusCode StatusServiceUnavailable ctx, w)
  else
    results ← Select (ctx_Request ctx) r;
    match results with
    | None | Some [] => Done (SetStatusCode StatusNotFound ctx, w)
    | Some ((first :: others) as results) =>
        let count := length results in
        let merge := (1 <? count)%nat in
        '(results, w) ← (if merge then doProxy_each ctx results r w
                         else '(x, w) ← doProxy ctx first r w; Done (x :: others, w));
        match range_errors merge ctx results with
        | Some out => ctx ← out; Done (ctx, w)
        | None =>
            ctx ← range_headers ctx results;
            let ctx := set_ctx_Header
                         (Header_SetContentType MergeContentType (Header (ctx_Response ctx))) ctx in
            let ctx := SetStatusCode StatusOK ctx in
            let ctx := WriteString "{" ctx in
            ctx ← range_write count 0 ctx results;
            Done (WriteString "}" ctx, w)
        end
    end.
End Proxy.

(** ** Serialization of a server ([Server.Marshal], [UnMarshalServer])

    [encoding/json] is the standard library's.  The bytes it writes and
    reads are modelled by the JSON document they spell, a string of the
    document being the bytes the decoder gives for it; what the
    repository decides is the document of a [Server]: the tags of the
    struct (member names, [omitempty]), the fields that are not exported,
    and the default of [checkTimeout].  The encoder coerces the strings
    it writes to valid UTF-8. *)
#[warnings="-register-all"]
Inductive JSON : Type :=
| JNull
| JBool (b : bool)
| JNumber (z : Z)
| JString (s : string)
| JArray (elems : list JSON)
| JObject (members : list (string * JSON)).

(** A Go string is a sequence of bytes; the encoder of [encoding/json]
    reads it as UTF-8 ([unicode/utf8]) and writes valid UTF-8 only. *)
Definition byte (c : ascii) : Z := Z.of_N (N_of_ascii c).

(** The tables [first] and [acceptRanges] of [unicode/utf8]: for the first
    byte of an encoding, its length and the range its second byte must
    lie in; [None] for a byte that starts no encoding (a continuation
    byte, [C0], [C1], [F5] and above). *)
Definition utf8_first (b : Z) : option (nat * Z * Z) :=
  if b <? 128 then Some (1%nat, 0, 0)
  else if b <? 194 then None
  else if b <? 224 then Some (2%nat, 128, 191)
  else if b =? 224 then Some (3%nat, 160, 191)
  else if b <? 237 then Some (3%nat, 128, 191)
  else if b =? 237 then Some (3%nat, 128, 159)
  else if b <? 240 then Some (3%nat, 128, 191)
  else if b =? 240 then Some (4%nat, 144, 191)
  else if b <? 244 then Some (4%nat, 128, 191)
  else if b =? 244 then Some (4%nat, 128, 143)
  else None.

(** A continuation byte: [locb <= c <= hicb]. *)
Definition continuation (c : ascii) : bool := (128 <=? byte c) && (byte c <=? 191).

(** [utf8.DecodeRuneInString], its second result: the number of bytes of
    the encoding at the head of the string, and [0] where the decoder
    answers [(RuneError, 1)], that is where the head is no well-formed
    encoding (a wrong or missing byte, an overlong form, a surrogate, a
    value above [10FFFF]). *)
Definition rune_size (s : string) : nat :=
  match s with
  | EmptyString => 0%nat
  | String s0 rest =>
      match utf8_first (byte s0) with
      | None => 0%nat
      | Some (1%nat, _, _) => 1%nat
      | Some (sz, lo, hi) =>
          match rest with
          | String s1 rest1 =>
              if (lo <=? byte s1) && (byte s1 <=? hi) then
                if (sz <=? 2)%nat then 2%nat
                else match rest1 with
                     | String s2 rest2 =>
                         if continuation s2 then
                           if (sz <=? 3)%nat then 3%nat
                           else match rest2 with
                                | String s3 _ => if continuation s3 then 4%nat else 0%nat
                                | EmptyString => 0%nat
                                end
                         else 0%nat
                     | EmptyString => 0%nat
                     end
              else 0%nat
          | EmptyString => 0%nat
          end
      end
  end.

(** The encoding of [U+FFFD], the replacement character: [EF BF BD]. *)
Definition RuneError_utf8 : string :=
  String "239"%char (String "191"%char (String "189"%char EmptyString)).

(** The string the encoder writes for a Go string, as the decoder reads
    it back: every well-formed encoding is kept (the escapes the encoder
    writes for quotes, control characters and the like spell the same
    characters), and each byte at which the decoder answers
    [(RuneError, 1)] is replaced by [U+FFFD].  [skip] counts the bytes of
    the current encoding that are still to copy. *)
Fixpoint coerce_from (skip : nat) (s : string) : string :=
  match s with
  | EmptyString => EmptyString
  | String c s' =>
      match skip with
      | S k => String c (coerce_from k s')
      | O =>
          match rune_size s with
          | O => RuneError_utf8 ++ coerce_from 0 s'
          | S k => String c (coerce_from k s')
          end
      end
  end.

Definition coerce_utf8 (s : string) : string := coerce_from 0 s.

(** [utf8.ValidString]: the string is made of well-formed encodings. *)
Fixpoint ValidString_from (skip : nat) (s : string) : bool :=
  match s with
  | EmptyString => true
  | String c s' =>
      match skip with
      | S k => ValidString_from k s'
      | O =>
          match rune_size s with
          | O => false
          | S k => ValidString_from k s'
          end
      end
  end.

Definition ValidString (s : string) : bool := ValidString_from 0 s.

(** A Go string as a JSON value. *)
Definition encode_string (v : string) : JSON := JString (coerce_utf8 v).

(** A member with [omitempty] is left out when the field has its zero
    value (false, 0, the empty string, a slice without elements). *)
Definition omitempty_string (key v : string) : list (string * JSON) :=
  if String.eqb v "" then [] else [(key, encode_string v)].
Definition omitempty_int (key : string) (v : Z) : list (string * JSON) :=
  if v =? 0 then [] else [(key, JNumber v)].
Definition omitempty_bool (key : string) (v : bool) : list (string * JSON) :=
  if v then [(key, JBool true)] else [].
Definition omitempty_strings (key : string) (v : list string) : list (string * JSON) :=
  match v with
  | [] => []
  | _ :: _ => [(key, JArray (map encode_string v))]
  end.

(** [Server.Marshal]: the exported fields, in the order of the struct. *)
Definition Marshal (s : Server) : JSON :=
  JObject (omitempty_string "schema" (Schema s)
           ++ omitempty_string "addr" (Addr s)
           ++ omitempty_bool "external" (External s)
           ++ omitempty_string "checkPath" (CheckPath s)
           ++ [("checkResponsedBody", encode_string (CheckResponsedBody s))]
           ++ omitempty_int "checkDuration" (CheckDuration s)
           ++ omitempty_int "checkTimeout" (CheckTimeout s)
           ++ omitempty_int "status" (Status s)
           ++ omitempty_int "maxQPS" (MaxQPS s)
           ++ omitempty_int "halfToOpenSeconds" (HalfToOpenSeconds s)
           ++ omitempty_int "halfTrafficRate" (HalfTrafficRate s)
           ++ omitempty_int "halfToOpenSucceedRate" (HalfToOpenSucceedRate s)
           ++ omitempty_int "halfToOpenCollectSeconds" (HalfToOpenCollectSeconds s)
           ++ omitempty_int "openToCloseFailureRate" (OpenToCloseFailureRate s)
           ++ omitempty_int "openToCloseCollectSeconds" (OpenToCloseCollectSeconds s)
           ++ omitempty_strings "bindClusters" (BindClusters s))%list.

(** Decoding a JSON value into a field: a value of another kind leaves
    the field as it is (the error this gives is dropped by
    [UnMarshalServer]); a number that does not fit an [int] is such a
    value; [null] empties a slice and leaves the other fields. *)
Definition decode_string (v : JSON) (old : string) : string :=
  match v with JString s => s | _ => old end.
Definition decode_int (v : JSON) (old : Z) : Z :=
  match v with JNumber z => if in_intb z then z else old | _ => old end.
Definition decode_bool (v : JSON) (old : bool) : bool :=
  match v with JBool b => b | _ => old end.
Definition decode_strings (v : JSON) (old : list string) : list string :=
  match v with
  | JArray elems => map (fun e => decode_string e "") elems
  | JNull => []
  | _ => old
  end.

Definition lower_ascii (c : ascii) : ascii :=
  let n := nat_of_ascii c in
  if ((65 <=? n) && (n <=? 90))%nat then ascii_of_nat (n + 32) else c.

Fixpoint lower (s : string) : string :=
  match s with
  | EmptyString => EmptyString
  | String c s' => String (lower_ascii c) (lower s')
  end.

(** A member name designates the field whose tag it is, whatever the case
    of its letters. *)
Definition key_is (key tag : string) : bool := String.eqb (lower key) (lower tag).

(** One member of the document, decoded into the server. *)
Definition decode_member (s : Server) (kv : string * JSON) : Server :=
  let '(k, v) := kv in
  if key_is k "schema" then set_Schema (decode_string v (Schema s)) s
  else if key_is k "addr" then set_Addr (decode_string v (Addr s)) s
  else if key_is k "external" then set_External (decode_bool v (External s)) s
  else if key_is k "checkPath" then set_CheckPath (decode_string v (CheckPath s)) s
  else if key_is k "checkResponsedBody"
       then set_CheckResponsedBody (decode_string v (CheckResponsedBody s)) s
  else if key_is k "checkDuration" then set_CheckDuration (decode_int v (CheckDuration s)) s
  else if key_is k "checkTimeout" then set_CheckTimeout (decode_int v (CheckTimeout s)) s
  else if key_is k "status" then set_Status (decode_int v (Status s)) s
  else if key_is k "maxQPS" then set_MaxQPS (decode_int v (MaxQPS s)) s
  else if key_is k "halfToOpenSeconds"
       then set_HalfToOpenSeconds (decode_int v (HalfToOpenSeconds s)) s
  else if key_is k "halfTrafficRate"
       then set_HalfTrafficRate (decode_int v (HalfTrafficRate s)) s
  else if key_is k "halfToOpenSucceedRate"
       then set_HalfToOpenSucceedRate (decode_int v (HalfToOpenSucceedRate s)) s
  else if key_is k "halfToOpenCollectSeconds"
       then set_HalfToOpenCollectSeconds (decode_int v (HalfToOpenCollectSeconds s)) s
  else if key_is k "openToCloseFailureRate"
       then set_OpenToCloseFailureRate (decode_int v (OpenToCloseFailureRate s)) s
  else if key_is k "openToCloseCollectSeconds"
       then set_OpenToCloseCollectSeconds (decode_int v (OpenToCloseCollectSeconds s)) s
  else if key_is k "bindClusters" then set_BindClusters (decode_strings v (BindClusters s)) s
  else s.

(** [json.Unmarshal(data, v)] for a [*Server]: the members of the object
    are decoded in the order of the document. *)
Definition Unmarshal (data : JSON) (v : Server) : Server :=
  match data with
  | JObject members => foldl decode_member v members
  | _ => v
  end.

(** [UnMarshalServer]. *)
Definition UnMarshalServer (data : JSON) : Server :=
  let v := Unmarshal data zeroServer in
  if 0 =? CheckTimeout v then set_CheckTimeout DefaultCheckTimeoutInSeconds v else v.

(** [UnMarshalServerFromReader], without the error it returns. *)
Definition UnMarshalServerFromReader (data : JSON) : Server :=
  let v := Unmarshal data zeroServer in
  let v := set_Status Down v in
  if 0 =? CheckTimeout v then set_CheckTimeout DefaultCheckTimeoutInSeconds v else v.

(** The fields of a server are Go [int]s. *)
Definition Server_ints (s : Server) : Prop :=
  in_int (CheckDuration s) /\ in_int (CheckTimeout s) /\ in_int (Status s) /\
  in_int (MaxQPS s) /\ in_int (HalfToOpenSeconds s) /\ in_int (HalfTrafficRate s) /\
  in_int (HalfToOpenSucceedRate s) /\ in_int (HalfToOpenCollectSeconds s) /\
  in_int (OpenToCloseFailureRate s) /\ in_int (OpenToCloseCollectSeconds s).

(** The serialized part of a server: the fields that are not exported are
    at their zero value. *)
Definition exported (s : Server) : Server :=
  Build_Server (Schema s) (Addr s) (External s) (CheckPath s) (CheckResponsedBody s)
    (CheckDuration s) (CheckTimeout s) (Status s) (MaxQPS s) (HalfToOpenSeconds s)
    (HalfTrafficRate s) (HalfToOpenSucceedRate s) (HalfToOpenCollectSeconds s)
    (OpenToCloseFailureRate s) (OpenToCloseCollectSeconds s) (BindClusters s)
    None 0 0 0 0 false false.

(** The strings of a server are valid UTF-8. *)
Definition Server_utf8 (s : Server) : Prop :=
  ValidString (Schema s) = true /\ ValidString (Addr s) = true /\
  ValidString (CheckPath s) = true /\ ValidString (CheckResponsedBody s) = true /\
  Forall (fun name => ValidString name = true) (BindClusters s).

(** The server with each of its strings as the encoder writes it. *)
Definition coerced (s : Server) : Server :=
  set_BindClusters (map coerce_utf8 (BindClusters s))
    (set_CheckResponsedBody (coerce_utf8 (CheckResponsedBody s))
       (set_CheckPath (coerce_utf8 (CheckPath s))
          (set_Addr (coerce_utf8 (Addr s)) (set_Schema (coerce_utf8 (Schema s)) s)))).

(** ** Auxiliary definitions of the statements *)

(** The server after a health check whose probe came back with [probe]:
    [Server.check] followed by the [changeTo] of [addToCheck]. *)
Definition probed (s : Server) (probe : ProbeResult) : Server :=
  if check_succ s probe then changeTo Up (reset s) else changeTo Down (fail s).

(** The server as [AddNewServer] registers it, before its first check. *)
Definition registered (svr : Server) : Server :=
  init (set_useCheckDuration (CheckDuration svr) (set_Status Down (set_prevStatus Down svr))).

(** The cluster map holds the name, with a cluster object behind it. *)
Definition has_cluster (r : RouteTable) (name : string) : Prop :=
  exists (p : loc) (c : Cluster), clusters r !! name = Some p /\ cluster_store r !! p = Some c.

(** Every cluster that a node of an API or a routing of the table names
    is in the cluster map. *)
Definition clusters_exist (r : RouteTable) : Prop :=
  (forall k api node, (k, api) ∈ apis r -> node ∈ Nodes api ->
                      has_cluster r (ClusterName node)) /\
  (forall k routing, (k, routing) ∈ routings r ->
                     has_cluster r (RoutingClusterName routing)).

(** The merge response as the spec words it: the JSON object
    [{"attrName1": body1, ..., "attrNameN": bodyN}], a member per node
    with the raw body of its backend, members separated by commas. *)
Definition merge_member (node : Node) (res : Response) : string :=
  quote ++ AttrName node ++ quote ++ ":" ++ Body res.

Fixpoint merge_members (nodes : list Node) (resps : list Response) : string :=
  match nodes, resps with
  | node :: nodes', res :: resps' =>
      merge_member node res
      ++ (match nodes' with [] => "" | _ :: _ => "," end)
      ++ merge_members nodes' resps'
  | _, _ => ""
  end.

Definition merge_object (nodes : list Node) (resps : list Response) : string :=
  "{" ++ merge_members nodes resps ++ "}".

(** The environment in which only the post-error filters are replaced. *)
Definition with_postErr {Request W : Type}
    (f : context Request -> W -> context Request * W) (E : ProxyEnv Request W)
    : ProxyEnv Request W :=
  {| copyRequest := copyRequest;
     SetRequestURI := SetRequestURI;
     SetHost := SetHost;
     getNodeURL := getNodeURL;
     doPreFilters := doPreFilters;
     doPostFilters := doPostFilters;
     doPostErrFilters := f;
     client_Do := client_Do;
     RenderMock := RenderMock;
     UnixNano := UnixNano |}.

(** ** Example objects *)

(** A server as it may arrive: marked up, with a tripped circuit. *)
Definition server_a : Server :=
  Build_Server "http" "10.0.0.1:80" false "/check" "OK" 5 0 Up 100 10 50 90 10 50 10 []
    None 0 Up 0 CircuitClose false false.

(** [server_a] with strings beyond ASCII: a check path with the two bytes
    of a small e with an acute accent, and a bind; [server_a] with a
    scheme that is the single byte [FF]. *)
Definition e_acute : string := String "195"%char (String "169"%char EmptyString).

Definition server_e : Server :=
  set_BindClusters ["caf" ++ e_acute] (set_CheckPath ("/" ++ e_acute) server_a).

Definition byte_FF : string := String "255"%char EmptyString.

Definition server_ff : Server := set_Schema byte_FF server_a.

(** An empty route table, and the object of [server_a] behind pointer 1. *)
Definition table_a : RouteTable := store_svr 1%positive server_a NewRouteTable.

(** A probe that succeeds for [server_a], and one that does not. *)
Definition probe_ok : ProbeResult := ProbeResp 200 (Some "OK").
Definition probe_500 : ProbeResult := ProbeResp 500 None.

(** [server_a] once registered and probed without success, and the table
    that holds it. *)
Definition server_a_down : Server := probed (registered server_a) probe_500.

Definition table_a_down : RouteTable :=
  Build_RouteTable {[1%positive := server_a_down]} ∅ ∅ {["10.0.0.1:80" := 1%positive]}
    {["10.0.0.1:80" := ∅]} [] [] {["10.0.0.1:80" := 7 * Second]} []
    {["10.0.0.1:80" := [1; 10]]}.

(** [server_a] once registered and probed with success; a cluster; the
    table in which the server is bound to the cluster, and the table from
    which three calls make it. *)
Definition server_a_up : Server := probed (registered server_a) probe_ok.

Definition cluster_c1 : Cluster := Build_Cluster "c1" "ROUNDROBIN" [].

Definition table_b0 : RouteTable :=
  set_cluster_store {[1%positive := cluster_c1]} table_a.

Definition table_b : RouteTable :=
  Build_RouteTable {[1%positive := server_a_up]}
    {[1%positive := Build_Cluster "c1" "ROUNDROBIN" ["10.0.0.1:80"]]}
    {["c1" := 1%positive]} {["10.0.0.1:80" := 1%positive]}
    {["10.0.0.1:80" := {["c1" := 1%positive]}]} [] [] {["10.0.0.1:80" := 5 * Second]} []
    {["10.0.0.1:80" := [1; 10]]}.

(** The parameters for the examples.  A request is its path; the URL of
    an API and the configuration of a routing are literal patterns that
    accept the paths they are a prefix of; parsing an API changes none of
    its fields; the key of an API is laid out as in the registry,
    [<url>-<method>]; every routing is well formed; the load balancer
    picks the first active server. *)
Definition prefixEnv : ModelEnv string :=
  {| api_matches := fun api req => String.prefix (URL api) req;
     api_Parse := fun api => api;
     getAPIKey := fun url method => url ++ "-" ++ method;
     routing_Matches := fun routing req => String.prefix (Cfg routing) req;
     routing_Check := fun _ => None;
     lb_Select := fun _ _ => 0%nat |}.

Definition api_hello : API := Build_API "/hello" "GET" [Build_Node "c1" "" ""] None.

(** APIs and a routing for the examples: [api_hel] accepts what
    [api_hello] accepts; the node of [api_lost] names a cluster that no
    table here has; [routing_hello] sends the requests under [/hello] to
    the cluster [c1]. *)
Definition api_hel : API := Build_API "/hel" "GET" [Build_Node "c2" "" ""] None.

Definition node_lost : Node := Build_Node "lost" "" "".

Definition api_lost : API := Build_API "/hello" "GET" [node_lost] None.

Definition routing_hello : Routing := Build_Routing "r1" "c1" "/hello".

(** [table_b] with a second cluster, [c2], that has no active server. *)
Definition cluster_c2 : Cluster := Build_Cluster "c2" "ROUNDROBIN" [].

Definition table_c : RouteTable :=
  set_clusters (<["c2" := 2%positive]> (clusters table_b))
    (set_cluster_store (<[2%positive := cluster_c2]> (cluster_store table_b)) table_b).

(** [table_c] with both APIs, in the two orders a [range] may visit them. *)
Definition table_hello_hel : RouteTable :=
  set_apis [("/hello-GET", api_hello); ("/hel-GET", api_hel)] table_c.

Definition table_hel_hello : RouteTable :=
  set_apis [("/hel-GET", api_hel); ("/hello-GET", api_hello)] table_c.

(** [table_b] with [api_lost], without and with the routing. *)
Definition table_lost : RouteTable := set_apis [("/hello-GET", api_lost)] table_b.

Definition table_lost_routed : RouteTable :=
  set_routings [("r1", routing_hello)] table_lost.

(** An environment for the examples.  The state is the log of the calls
    made to the filters and to the backend.  A request is its path; a
    rewrite gives the pattern of the node as the new path; the backend
    answers the path it is asked in a JSON array, with the path in a
    header field and, for the path [/a], a field of its own, except for
    two paths on which the call fails, once because the client has
    gone. *)
Definition backend_response (req : string) : Response :=
  Build_Response 200
    ([("Content-Length", "6"); ("Content-Type", "text/plain");
      ("Date", "today"); ("X-Path", req)]
     ++ (if String.eqb req "/a" then [("X-Only-A", "1")] else []))%list
    ("[" ++ quote ++ req ++ quote ++ "]").

Definition logEnv : ProxyEnv string (list string) :=
  {| copyRequest := fun req => req;
     SetRequestURI := fun uri _ => uri;
     SetHost := fun _ req => req;
     getNodeURL := fun _ _ node => Rewrite node;
     doPreFilters := fun c w => ("", 0, None, c, (w ++ ["pre"])%list);
     doPostFilters := fun c w => ("", 0, None, c, (w ++ ["post"])%list);
     doPostErrFilters := fun c w => (c, (w ++ ["postErr"])%list);
     client_Do := fun req addr w =>
       if String.eqb req "/cancel"
       then (None, Some "request canceled while waiting for connection", (w ++ ["do"])%list)
       else if String.eqb req "/refused"
       then (None, Some "dial tcp: connection refused", (w ++ ["do"])%list)
       else (Some (backend_response req), None, (w ++ ["do"])%list);
     RenderMock := fun api ctx => WriteString (default "" (Mock api)) ctx;
     UnixNano := fun w => Z.of_nat (length w) |}.

(** The context of a request that has just arrived. *)
Definition newCtx (req : string) : RequestCtx string :=
  Build_RequestCtx req (Build_Response 200 [] "").

(** A merge API over the cluster [c1], and the table that has it. *)
Definition node_a : Node := Build_Node "c1" "/a" "a".
Definition node_b : Node := Build_Node "c1" "/b" "b".
Definition api_merge : API := Build_API "/merge" "GET" [node_a; node_b] None.
Definition table_merge : RouteTable := set_apis [("/merge-GET", api_merge)] table_b.

(** APIs whose backend calls fail, and the results [Select] gives for them. *)
Definition api_cancel : API := Build_API "/cancel" "GET" [Build_Node "c1" "" ""] None.
Definition api_refused : API := Build_API "/refused" "GET" [Build_Node "c1" "" ""] None.

Definition result_cancel : RouteResult :=
  Build_RouteResult api_cancel (Some (Build_Node "c1" "" "")) (Some 1%positive)
    None 0 None false.
Definition result_refused : RouteResult :=
  Build_RouteResult api_refused (Some (Build_Node "c1" "" "")) (Some 1%positive)
    None 0 None false.

(** ** More of server.go *)

(** The [Bind] struct of the model package, as the route table and the
    server read it; it is [Binding] here ([Bind] is the operation of the
    route table) and its field [ClusterName] is [BindClusterName]. *)
Record Binding : Type := Build_Binding {
  ServerAddr : string;
  BindClusterName : string
}.

(** [Server.HasBind]. *)
Definition HasBind (s : Server) : bool := (0 <? length (BindClusters s))%nat.

(** The loop of [Server.indexOf] from position [index] on. *)
Fixpoint indexOf_from (index : Z) (l : list string) (clusterName : string) : Z :=
  match l with
  | [] => -1
  | s :: l' => if String.eqb s clusterName then index
               else indexOf_from (index + 1) l' clusterName
  end.

(** [Server.indexOf]. *)
Definition indexOf (s : Server) (clusterName : string) : Z :=
  indexOf_from 0 (BindClusters s) clusterName.

(** [Server.AddBind]. *)
Definition AddBind (bind : Binding) (s : Server) : Server :=
  let index := indexOf s (BindClusterName bind) in
  if index =? -1
  then set_BindClusters (BindClusters s ++ [BindClusterName bind]) s
  else s.

(** [Server.RemoveBind]:
    [append(s.BindClusters[:index], s.BindClusters[index+1:]...)]. *)
Definition RemoveBind (clusterName : string) (s : Server) : Server :=
  let index := indexOf s clusterName in
  if 0 <=? index
  then set_BindClusters (take (Z.to_nat index) (BindClusters s)
                         ++ drop (Z.to_nat (index + 1)) (BindClusters s)) s
  else s.

(** [Server.updateFrom]: the tunables of [svr] are copied into [s]. *)
Definition updateFrom (svr : Server) (s : Server) : Server :=
  let s := set_MaxQPS (MaxQPS svr) s in
  let s := set_HalfToOpenSeconds (HalfToOpenSeconds svr) s in
  let s := set_HalfTrafficRate (HalfTrafficRate svr) s in
  let s := set_HalfToOpenCollectSeconds (HalfToOpenCollectSeconds svr) s in
  let s := set_HalfToOpenSucceedRate (HalfToOpenSucceedRate svr) s in
  let s := set_OpenToCloseCollectSeconds (OpenToCloseCollectSeconds svr) s in
  set_OpenToCloseFailureRate (OpenToCloseFailureRate svr) s.

(** [Server.getCheckURL]. *)
Definition getCheckURL (s : Server) : string :=
  Schema s ++ "://" ++ Addr s ++ CheckPath s.

(** ** More of routetable.go *)

(** [UpdateServer]; the argument is a pointer to the server that carries
    the new values. *)
Definition UpdateServer (p : loc) (r : RouteTable) : outcome (option error * RouteTable) :=
  svr ← deref_svr p r;
  match svrs r !! Addr svr with
  | None => Done (Some ErrServerNotFound, r)
  | Some pold =>
      let a := AddRecentCount (Addr svr) (OpenToCloseCollectSeconds svr) (analysiser r) in
      let a := AddRecentCount (Addr svr) (OpenToCloseCollectSeconds svr) a in
      let r := set_analysiser a r in
      old ← deref_svr pold r;
      Done (None, store_svr pold (updateFrom svr old) r)
  end.

(** ** The tables the operations build *)

(** What the operations keep true of a route table:
    - an address of the server map leads to a server object of that
      address, with its client, whose checks are not stopped;
    - the addresses of the mapping are those of the server map;
    - a name of the cluster map leads to a cluster object of that name,
      and so does a name in the mapping of a server;
    - the time wheel holds a timer for exactly the addresses of the
      servers that are not external;
    - the pointers waiting in the channel lead to server objects. *)
Record well_formed (r : RouteTable) : Prop := Build_well_formed {
  wf_svrs : forall a p, svrs r !! a = Some p ->
    exists s, svr_store r !! p = Some s /\ Addr s = a /\
              is_Some (httpClient s) /\ checkStopped s = false;
  wf_mapping : forall a, is_Some (mapping r !! a) <-> is_Some (svrs r !! a);
  wf_clusters : forall n p, clusters r !! n = Some p ->
    exists c, cluster_store r !! p = Some c /\ Name c = n;
  wf_binded : forall a binded n p,
    mapping r !! a = Some binded -> binded !! n = Some p ->
    exists c, cluster_store r !! p = Some c /\ Name c = n;
  wf_tw : forall a, is_Some (tw r !! a) <->
    exists p s, svrs r !! a = Some p /\ svr_store r !! p = Some s /\ External s = false;
  wf_evtChan : forall p, p ∈ evtChan r -> is_Some (svr_store r !! p)
}.

(** One step in the life of a route table: a caller creates a server or a
    cluster object behind a pointer that is not in use; an operation of
    the table returns; the time wheel runs the check of an address it
    holds a timer for; the worker of [changed] takes a server from the
    channel.  The operations on APIs and routings touch [apis] and
    [routings] only, whatever they store there. *)
Inductive step : RouteTable -> RouteTable -> Prop :=
| step_new_server (p : loc) (s : Server) (r : RouteTable) :
    svr_store r !! p = None -> step r (store_svr p s r)
| step_new_cluster (p : loc) (c : Cluster) (r : RouteTable) :
    cluster_store r !! p = None ->
    step r (set_cluster_store (<[p := c]> (cluster_store r)) r)
| step_AddNewServer (p : loc) (probe : ProbeResult) (r : RouteTable)
    (e : option error) (r' : RouteTable) :
    AddNewServer p probe r = Done (e, r') -> step r r'
| step_UpdateServer (p : loc) (r : RouteTable) (e : option error) (r' : RouteTable) :
    UpdateServer p r = Done (e, r') -> step r r'
| step_DeleteServer (addr : string) (r : RouteTable) (e : option error) (r' : RouteTable) :
    DeleteServer addr r = Done (e, r') -> step r r'
| step_AddNewCluster (p : loc) (r : RouteTable) (e : option error) (r' : RouteTable) :
    AddNewCluster p r = Done (e, r') -> step r r'
| step_Bind (addr name : string) (r : RouteTable) (e : option error) (r' : RouteTable) :
    Bind addr name r = Done (e, r') -> step r r'
| step_UnBind (addr name : string) (r : RouteTable) (e : option error) (r' : RouteTable) :
    UnBind addr name r = Done (e, r') -> step r r'
| step_check (addr : string) (probe : ProbeResult) (r r' : RouteTable) :
    is_Some (tw r !! addr) -> check addr probe r = Done r' -> step r r'
| step_changed (r r' : RouteTable) :
    changed r = Some (Done r') -> step r r'
| step_apis (l : list (string * API)) (r : RouteTable) : step r (set_apis l r)
| step_routings (l : list (string * Routing)) (r : RouteTable) : step r (set_routings l r).

(** The tables that come out of [NewRouteTable] by such steps. *)
Definition reachable (r : RouteTable) : Prop := rtc step NewRouteTable r.

(** Updates of cluster objects that keep their names. *)
Definition same_names (h h' : gmap loc Cluster) : Prop :=
  forall q c, h !! q = Some c -> exists c', h' !! q = Some c' /\ Name c' = Name c.

(** [table_b] with a second object for the server of [table_b], carrying
    another limit of requests. *)
Definition table_u : RouteTable :=
  store_svr 2%positive (set_MaxQPS 7 server_a) table_b.

(** * Properties *)

(** ** Machine integers *)

Lemma wrap_small (z : Z) : in_int z -> wrap z = z.
Proof.
  unfold in_int, int_min, int_max, wrap. intros Hz.
  rewrite Z.mod_small by lia. lia.
Qed.

Lemma in_intb_true (z : Z) : in_int z -> in_intb z = true.
Proof.
  unfold in_int, in_intb. intros [H1 H2].
  apply andb_true_intro. split; apply Z.leb_le; assumption.
Qed.

(** ** Health back-off *)

Lemma useCheckDuration_fail (s : Server) :
  useCheckDuration (fail s) = wrap (useCheckDuration s + useCheckDuration s ÷ 2).
Proof. destruct s; reflexivity. Qed.

Lemma checkFailCount_fail (s : Server) :
  checkFailCount (fail s) = wrap (checkFailCount s + 1).
Proof. destruct s; reflexivity. Qed.

Lemma fails_S (n : nat) (s : Server) : fails (S n) s = fail (fails n s).
Proof. reflexivity. Qed.

(** One step of the back-off on a non-negative interval, without
    overflow: the new interval is the old one and its half, rounded down. *)
Lemma backoff_step (u : Z) :
  0 <= u -> u + u ÷ 2 = u + u / 2 /\ u <= u + u ÷ 2 /\ 3 * u - 1 <= 2 * (u + u ÷ 2) <= 3 * u.
Proof.
  intros Hu. rewrite Z.quot_div_nonneg by lia.
  pose proof (Z.div_mod u 2 ltac:(lia)) as Hd.
  pose proof (Z.mod_pos_bound u 2 ltac:(lia)) as Hm.
  lia.
Qed.

(** The arithmetic of one more failure: as long as [3^n * d0] fits an
    [int], the addition does not overflow. *)
Lemma backoff_fit (u d0 : Z) (k n : nat) :
  0 <= d0 -> 3 ^ Z.of_nat n * d0 <= int_max -> (k < n)%nat ->
  0 <= u -> 2 ^ Z.of_nat k * u <= 3 ^ Z.of_nat k * d0 ->
  in_int (u + u ÷ 2) /\
  2 ^ Z.of_nat (S k) * (u + u ÷ 2) <= 3 ^ Z.of_nat (S k) * d0.
Proof.
  intros H0 Hmax Hk Hu Hinv.
  destruct (backoff_step u Hu) as (_ & Hle & _ & Hup).
  assert (Hp2 : 0 < 2 ^ Z.of_nat k) by (apply Z.pow_pos_nonneg; lia).
  assert (Hmono : 3 ^ Z.of_nat (S k) <= 3 ^ Z.of_nat n)
    by (apply Z.pow_le_mono_r; lia).
  assert (E2 : 2 ^ Z.of_nat (S k) = 2 * 2 ^ Z.of_nat k)
    by (rewrite Nat2Z.inj_succ, Z.pow_succ_r; lia).
  assert (E3 : 3 ^ Z.of_nat (S k) = 3 * 3 ^ Z.of_nat k)
    by (rewrite Nat2Z.inj_succ, Z.pow_succ_r; lia).
  assert (Hp3 : 0 < 3 ^ Z.of_nat k) by (apply Z.pow_pos_nonneg; lia).
  assert (Hn : 3 ^ Z.of_nat (S k) * d0 <= 3 ^ Z.of_nat n * d0)
    by (apply Z.mul_le_mono_nonneg_r; lia).
  rewrite E2, E3 in *. clear E2 E3 Hmono.
  generalize dependent (u + u ÷ 2). generalize dependent (2 ^ Z.of_nat k).
  generalize dependent (3 ^ Z.of_nat k). generalize dependent (3 ^ Z.of_nat n).
  unfold in_int, int_min. intros. nia.
Qed.

Lemma fails_invariant (s : Server) (n k : nat) :
  0 <= useCheckDuration s ->
  3 ^ Z.of_nat n * useCheckDuration s <= int_max ->
  (k <= n)%nat ->
  0 <= useCheckDuration (fails k s) /\
  2 ^ Z.of_nat k * useCheckDuration (fails k s) <= 3 ^ Z.of_nat k * useCheckDuration s.
Proof.
  intros H0 Hmax. induction k as [|k IH]; intros Hk.
  - simpl. lia.
  - destruct IH as [IH1 IH2]; [lia|].
    destruct (backoff_fit _ _ k n H0 Hmax ltac:(lia) IH1 IH2) as [Hfit Hstep].
    rewrite fails_S, useCheckDuration_fail, (wrap_small _ Hfit).
    destruct (backoff_step _ IH1) as (_ & Hle & _).
    split; [lia | exact Hstep].
Qed.

Lemma fails_step (s : Server) (n k : nat) :
  0 <= useCheckDuration s ->
  3 ^ Z.of_nat n * useCheckDuration s <= int_max ->
  (k < n)%nat ->
  useCheckDuration (fails (S k) s)
  = useCheckDuration (fails k s) + useCheckDuration (fails k s) ÷ 2.
Proof.
  intros H0 Hmax Hk.
  destruct (fails_invariant s n k H0 Hmax ltac:(lia)) as [Hpos Hinv].
  destruct (backoff_fit _ _ k n H0 Hmax Hk Hpos Hinv) as [Hfit _].
  rewrite fails_S, useCheckDuration_fail. apply wrap_small, Hfit.
Qed.

(** With [d0] a multiple of [2^n], the halves are exact. *)
Lemma fails_exact (s : Server) (n : nat) (q : Z) :
  0 <= useCheckDuration s ->
  3 ^ Z.of_nat n * useCheckDuration s <= int_max ->
  useCheckDuration s = 2 ^ Z.of_nat n * q ->
  forall k m : nat, (k + m = n)%nat ->
    useCheckDuration (fails k s) = 3 ^ Z.of_nat k * 2 ^ Z.of_nat m * q.
Proof.
  intros H0 Hmax Hq. induction k as [|k IH]; intros m Hkm.
  - simpl in *. subst m. rewrite Hq. lia.
  - rewrite (fails_step s n k H0 Hmax) by lia.
    rewrite (IH (S m)) by lia.
    rewrite !Nat2Z.inj_succ, !Z.pow_succ_r by lia.
    replace (3 ^ Z.of_nat k * (2 * 2 ^ Z.of_nat m) * q)
      with (3 ^ Z.of_nat k * 2 ^ Z.of_nat m * q * 2) by lia.
    rewrite Z.quot_mul by lia. lia.
Qed.

(** C6, as the code has it.  On consecutive failures that start from a
    non-negative interval [d0], each failure sets the interval to
    [u + u / 2] in Go's integer arithmetic (the half is rounded down): as
    long as [3^n * d0] fits an [int], the intervals do not decrease, each
    is within one half second below [1.5] times the previous one, the
    interval after [n] failures is at most [d0 * (3/2)^n], and it is
    exactly [d0 * (3/2)^n] when [d0] is a multiple of [2^n]. *)
Theorem fail_backoff_intervals (s : Server) (n : nat) :
  0 <= useCheckDuration s ->
  3 ^ Z.of_nat n * useCheckDuration s <= int_max ->
  (forall k : nat, (k < n)%nat ->
     useCheckDuration (fails (S k) s)
     = useCheckDuration (fails k s) + useCheckDuration (fails k s) ÷ 2 /\
     useCheckDuration (fails k s) <= useCheckDuration (fails (S k) s) /\
     3 * useCheckDuration (fails k s) - 1 <= 2 * useCheckDuration (fails (S k) s)
       <= 3 * useCheckDuration (fails k s)) /\
  2 ^ Z.of_nat n * useCheckDuration (fails n s) <= 3 ^ Z.of_nat n * useCheckDuration s /\
  (forall q : Z, useCheckDuration s = 2 ^ Z.of_nat n * q ->
     2 ^ Z.of_nat n * useCheckDuration (fails n s) = 3 ^ Z.of_nat n * useCheckDuration s).
Proof.
  intros H0 Hmax. split; [|split].
  - intros k Hk.
    rewrite (fails_step s n k H0 Hmax Hk).
    destruct (fails_invariant s n k H0 Hmax ltac:(lia)) as [Hpos _].
    destruct (backoff_step _ Hpos) as (_ & Hle & Hlo & Hup).
    repeat split; assumption.
  - apply (fails_invariant s n n H0 Hmax). lia.
  - intros q Hq.
    rewrite (fails_exact s n q H0 Hmax Hq n 0%nat) by lia.
    rewrite Hq. simpl (2 ^ Z.of_nat 0). lia.
Qed.

Lemma fail_backoff_intervals_witness :
  let s := set_useCheckDuration 8 zeroServer in
  useCheckDuration (fails 3 s) = 27 /\
  2 ^ Z.of_nat 3 * useCheckDuration (fails 3 s) = 3 ^ Z.of_nat 3 * useCheckDuration s.
Proof.
  intros s. split; [reflexivity|].
  assert (H0 : 0 <= useCheckDuration s) by (vm_compute; discriminate).
  assert (Hmax : 3 ^ Z.of_nat 3 * useCheckDuration s <= int_max)
    by (vm_compute; discriminate).
  exact (proj2 (proj2 (fail_backoff_intervals s 3 H0 Hmax)) 1 eq_refl).
Defined.

(** C6 as stated fails: from [d0 = 5] one failure gives the interval [7],
    not [7.5]; from [d0 = 1] the interval stays [1] whatever the number of
    failures counted here. *)
Lemma fail_not_geometric :
  let s5 := set_useCheckDuration 5 zeroServer in
  let s1 := set_useCheckDuration 1 zeroServer in
  useCheckDuration (fails 1 s5) = 7 /\
  2 ^ 1 * useCheckDuration (fails 1 s5) <> 3 ^ 1 * useCheckDuration s5 /\
  useCheckDuration (fails 4 s1) = 1.
Proof.
  cbv zeta. split; [reflexivity|]. split; [|reflexivity].
  vm_compute. discriminate.
Qed.

(** ** Serialization round trip *)

Lemma decode_strings_encode (l : list string) :
  map (fun e => decode_string e "") (map encode_string l) = map coerce_utf8 l.
Proof. induction l as [|a l IH]; simpl; [reflexivity | now rewrite IH]. Qed.

(** A string that is valid UTF-8 is written as it is. *)
Lemma coerce_from_valid (s : string) (skip : nat) :
  ValidString_from skip s = true -> coerce_from skip s = s.
Proof.
  revert skip. induction s as [|c s IH]; intros skip Hv; [reflexivity|].
  cbn [coerce_from ValidString_from] in *. destruct skip as [|k].
  - destruct (rune_size (String c s)) as [|k]; [discriminate|]. now rewrite (IH k Hv).
  - now rewrite (IH k Hv).
Qed.

Lemma coerce_utf8_valid (s : string) : ValidString s = true -> coerce_utf8 s = s.
Proof. apply coerce_from_valid. Qed.

Lemma coerced_valid (s : Server) : Server_utf8 s -> coerced s = s.
Proof.
  intros (H1 & H2 & H3 & H4 & H5). unfold coerced.
  rewrite (coerce_utf8_valid _ H1), (coerce_utf8_valid _ H2), (coerce_utf8_valid _ H3),
    (coerce_utf8_valid _ H4).
  replace (map coerce_utf8 (BindClusters s)) with (BindClusters s).
  - destruct s; reflexivity.
  - induction H5 as [|name l Hname _ IH]; [reflexivity|]. cbn.
    now rewrite (coerce_utf8_valid _ Hname), <- IH.
Qed.

(** Evaluate the comparisons of member names with tags. *)
Ltac eval_keys :=
  repeat match goal with
         | |- context [key_is ?a ?b] =>
             let r := eval vm_compute in (key_is a b) in
             change (key_is a b) with r
         end;
  cbv iota.

(** A member that was left out leaves the zero value the field has; a
    member that is present sets the field to the value it carries. *)
Ltac decode_chunk :=
  intros;
  lazymatch goal with
  | |- context [omitempty_string _ ?v] =>
      unfold omitempty_string; destruct (String.eqb_spec v "")
  | |- context [omitempty_int _ ?v] =>
      unfold omitempty_int; destruct (Z.eqb_spec v 0)
  | |- context [omitempty_bool _ ?v] =>
      unfold omitempty_bool; destruct v
  | |- context [omitempty_strings _ ?v] =>
      unfold omitempty_strings; destruct v
  end;
  [ try (match goal with s : Server |- _ => destruct s end;
         simpl in *; subst; reflexivity) .. ];
  try (unfold foldl, decode_member; eval_keys;
       unfold decode_int, decode_strings;
       rewrite ?in_intb_true by assumption;
       rewrite ?decode_strings_encode; reflexivity).

Lemma decode_schema s v :
  Schema s = "" ->
  foldl decode_member s (omitempty_string "schema" v) = set_Schema (coerce_utf8 v) s.
Proof. decode_chunk. Qed.

Lemma decode_addr s v :
  Addr s = "" ->
  foldl decode_member s (omitempty_string "addr" v) = set_Addr (coerce_utf8 v) s.
Proof. decode_chunk. Qed.

Lemma decode_external s v :
  External s = false ->
  foldl decode_member s (omitempty_bool "external" v) = set_External v s.
Proof. decode_chunk. Qed.

Lemma decode_checkPath s v :
  CheckPath s = "" ->
  foldl decode_member s (omitempty_string "checkPath" v) = set_CheckPath (coerce_utf8 v) s.
Proof. decode_chunk. Qed.

Lemma decode_checkResponsedBody s v :
  foldl decode_member s [("checkResponsedBody", encode_string v)]
  = set_CheckResponsedBody (coerce_utf8 v) s.
Proof. unfold foldl, decode_member. eval_keys. reflexivity. Qed.

Lemma decode_checkDuration s v :
  CheckDuration s = 0 -> in_int v ->
  foldl decode_member s (omitempty_int "checkDuration" v) = set_CheckDuration v s.
Proof. decode_chunk. Qed.

Lemma decode_checkTimeout s v :
  CheckTimeout s = 0 -> in_int v ->
  foldl decode_member s (omitempty_int "checkTimeout" v) = set_CheckTimeout v s.
Proof. decode_chunk. Qed.

Lemma decode_status s v :
  Status s = 0 -> in_int v ->
  foldl decode_member s (omitempty_int "status" v) = set_Status v s.
Proof. decode_chunk. Qed.

Lemma decode_maxQPS s v :
  MaxQPS s = 0 -> in_int v ->
  foldl decode_member s (omitempty_int "maxQPS" v) = set_MaxQPS v s.
Proof. decode_chunk. Qed.

Lemma decode_halfToOpenSeconds s v :
  HalfToOpenSeconds s = 0 -> in_int v ->
  foldl decode_member s (omitempty_int "halfToOpenSeconds" v) = set_HalfToOpenSeconds v s.
Proof. decode_chunk. Qed.

Lemma decode_halfTrafficRate s v :
  HalfTrafficRate s = 0 -> in_int v ->
  foldl decode_member s (omitempty_int "halfTrafficRate" v) = set_HalfTrafficRate v s.
Proof. decode_chunk. Qed.

Lemma decode_halfToOpenSucceedRate s v :
  HalfToOpenSucceedRate s = 0 -> in_int v ->
  foldl decode_member s (omitempty_int "halfToOpenSucceedRate" v)
  = set_HalfToOpenSucceedRate v s.
Proof. decode_chunk. Qed.

Lemma decode_halfToOpenCollectSeconds s v :
  HalfToOpenCollectSeconds s = 0 -> in_int v ->
  foldl decode_member s (omitempty_int "halfToOpenCollectSeconds" v)
  = set_HalfToOpenCollectSeconds v s.
Proof. decode_chunk. Qed.

Lemma decode_openToCloseFailureRate s v :
  OpenToCloseFailureRate s = 0 -> in_int v ->
  foldl decode_member s (omitempty_int "openToCloseFailureRate" v)
  = set_OpenToCloseFailureRate v s.
Proof. decode_chunk. Qed.

Lemma decode_openToCloseCollectSeconds s v :
  OpenToCloseCollectSeconds s = 0 -> in_int v ->
  foldl decode_member s (omitempty_int "openToCloseCollectSeconds" v)
  = set_OpenToCloseCollectSeconds v s.
Proof. decode_chunk. Qed.

Lemma decode_bindClusters s v :
  BindClusters s = [] ->
  foldl decode_member s (omitempty_strings "bindClusters" v)
  = set_BindClusters (map coerce_utf8 v) s.
Proof. decode_chunk. Qed.

(** Decoding the document of a server into a fresh server gives back its
    exported fields, the strings as the encoder wrote them. *)
Lemma Unmarshal_Marshal (s : Server) :
  Server_ints s -> Unmarshal (Marshal s) zeroServer = exported (coerced s).
Proof.
  intros (H1 & H2 & H3 & H4 & H5 & H6 & H7 & H8 & H9 & H10).
  unfold Unmarshal, Marshal. rewrite !foldl_app.
  rewrite decode_schema by reflexivity.
  rewrite decode_addr by reflexivity.
  rewrite decode_external by reflexivity.
  rewrite decode_checkPath by reflexivity.
  rewrite decode_checkResponsedBody.
  rewrite decode_checkDuration by (reflexivity || assumption).
  rewrite decode_checkTimeout by (reflexivity || assumption).
  rewrite decode_status by (reflexivity || assumption).
  rewrite decode_maxQPS by (reflexivity || assumption).
  rewrite decode_halfToOpenSeconds by (reflexivity || assumption).
  rewrite decode_halfTrafficRate by (reflexivity || assumption).
  rewrite decode_halfToOpenSucceedRate by (reflexivity || assumption).
  rewrite decode_halfToOpenCollectSeconds by (reflexivity || assumption).
  rewrite decode_openToCloseFailureRate by (reflexivity || assumption).
  rewrite decode_openToCloseCollectSeconds by (reflexivity || assumption).
  rewrite decode_bindClusters by reflexivity.
  reflexivity.
Qed.

Lemma UnMarshalServer_Marshal_coerced (s : Server) :
  Server_ints s ->
  UnMarshalServer (Marshal s)
  = set_CheckTimeout
      (if CheckTimeout s =? 0 then DefaultCheckTimeoutInSeconds else CheckTimeout s)
      (exported (coerced s)).
Proof.
  intros Hs. unfold UnMarshalServer. cbv zeta.
  rewrite (Unmarshal_Marshal s Hs).
  change (CheckTimeout (exported (coerced s))) with (CheckTimeout s).
  rewrite (Z.eqb_sym 0).
  destruct (CheckTimeout s =? 0); [reflexivity|].
  destruct s; reflexivity.
Qed.


(** ** Health checks *)

Lemma addToCheck_spec (p : loc) (probe : ProbeResult) (r : RouteTable) (s : Server) (t : Z) :
  svr_store r !! p = Some s -> httpClient s = Some t ->
  addToCheck p probe r
  = Done (set_tw (<[Addr s := wrap (useCheckDuration (probed s probe) * Second)]> (tw r))
            (store_svr p (probed s probe) r)).
Proof.
  intros Hp Ht. unfold addToCheck, deref_svr, Server_check, probed. rewrite Hp. cbn.
  rewrite Ht. cbn.
  destruct (check_succ s probe); reflexivity.
Qed.

Lemma check_spec (addr : string) (probe : ProbeResult) (r : RouteTable)
    (p : loc) (s : Server) (t : Z) :
  svrs r !! addr = Some p -> svr_store r !! p = Some s -> httpClient s = Some t ->
  check addr probe r
  = Done (set_evtChan (evtChan r ++ [p])
            (if checkStopped s then r
             else set_tw (<[Addr s := wrap (useCheckDuration (probed s probe) * Second)]> (tw r))
                    (store_svr p (probed s probe) r))).
Proof.
  intros Ha Hp Ht. unfold check, deref_svr. rewrite Ha, Hp. cbn.
  destruct (checkStopped s); cbn; [reflexivity|].
  rewrite (addToCheck_spec p probe r s t Hp Ht). reflexivity.
Qed.

Lemma probed_status (s : Server) (probe : ProbeResult) :
  Status (probed s probe) = (if check_succ s probe then Up else Down) /\
  prevStatus (probed s probe) = Status s /\
  circuit (probed s probe) = circuit s /\
  Addr (probed s probe) = Addr s.
Proof. unfold probed. destruct (check_succ s probe); repeat split. Qed.

Lemma check_succ_registered (svr : Server) (probe : ProbeResult) :
  check_succ (registered svr) probe = check_succ svr probe.
Proof. reflexivity. Qed.

Local Arguments AddRecentCount : simpl never.
Local Arguments addNewAnalysis : simpl never.

(** C10.  Whatever [Status], [prevStatus] and [circuit] the input carries,
    [AddNewServer] registers an accepted server with status [Down],
    previous status [Down] and circuit [CircuitOpen].  A server that is
    not external is then up exactly when the health check that follows
    the registration succeeds; an external server is changed to [Up] at
    once.  The outcome does not depend on the three input fields.  Later
    on, a check of the server makes it up exactly when its probe
    succeeds. *)
Theorem AddNewServer_registers (p : loc) (probe : ProbeResult) (r : RouteTable) (svr : Server) :
  svr_store r !! p = Some svr ->
  svrs r !! Addr svr = None ->
  Status (registered svr) = Down /\ prevStatus (registered svr) = Down /\
  circuit (registered svr) = CircuitOpen /\
  exists (r' : RouteTable) (s' : Server),
    AddNewServer p probe r = Done (None, r') /\
    svrs r' !! Addr svr = Some p /\
    svr_store r' !! p = Some s' /\
    s' = (if External svr then changeTo Up (registered svr)
          else probed (registered svr) probe) /\
    prevStatus s' = Down /\ circuit s' = CircuitOpen /\
    Status s' = (if External svr then Up else if check_succ svr probe then Up else Down) /\
    (forall st ps ci,
        AddNewServer p probe
          (store_svr p (set_circuit ci (set_prevStatus ps (set_Status st svr))) r)
        = Done (None, r')) /\
    (forall (r1 : RouteTable) (s1 : Server) (t : Z) (probe1 : ProbeResult),
        svrs r1 !! Addr svr = Some p -> svr_store r1 !! p = Some s1 ->
        httpClient s1 = Some t -> checkStopped s1 = false ->
        exists (r2 : RouteTable) (s2 : Server),
          check (Addr svr) probe1 r1 = Done r2 /\ svr_store r2 !! p = Some s2 /\
          (Status s2 = Up <-> check_succ s1 probe1 = true)).
Proof.
  intros Hp Hs. split; [reflexivity|]. split; [reflexivity|]. split; [reflexivity|].
  assert (Hlater : forall (r1 : RouteTable) (s1 : Server) (t : Z) (probe1 : ProbeResult),
             svrs r1 !! Addr svr = Some p -> svr_store r1 !! p = Some s1 ->
             httpClient s1 = Some t -> checkStopped s1 = false ->
             exists (r2 : RouteTable) (s2 : Server),
               check (Addr svr) probe1 r1 = Done r2 /\ svr_store r2 !! p = Some s2 /\
               (Status s2 = Up <-> check_succ s1 probe1 = true)).
  { intros r1 s1 t probe1 Ha1 Hp1 Ht1 Hstop.
    rewrite (check_spec (Addr svr) probe1 r1 p s1 t Ha1 Hp1 Ht1), Hstop.
    eexists _, _. split; [reflexivity|]. split; [apply lookup_insert_eq|].
    destruct (probed_status s1 probe1) as (Hst & _). rewrite Hst.
    destruct (check_succ s1 probe1); split; intros; try reflexivity; discriminate. }
  unfold AddNewServer at 1, deref_svr. rewrite Hp. cbn. rewrite Hs.
  fold (registered svr).
  destruct (External svr) eqn:Hext; cbn.
  - eexists _, _. split; [reflexivity|]. cbn.
    rewrite !lookup_insert_eq.
    repeat (split; [reflexivity|]). split; [|exact Hlater].
    intros st ps ci. unfold AddNewServer, deref_svr, store_svr. cbn.
    rewrite lookup_insert_eq. cbn. rewrite Hs, Hext. cbn.
    change (init _) with (registered svr).
    rewrite !insert_insert_eq. reflexivity.
  - rewrite (addToCheck_spec p probe _ (registered svr) (wrap (Second * getCheckTimeout svr)));
      [| apply lookup_insert_eq | reflexivity].
    cbn.
    eexists _, _. split; [reflexivity|]. cbn.
    rewrite !lookup_insert_eq.
    destruct (probed_status (registered svr) probe) as (Hst & Hps & Hci & Had).
    repeat (split; [first [reflexivity | assumption]|]). split; [|exact Hlater].
    intros st ps ci. unfold AddNewServer, deref_svr, store_svr. cbn.
    rewrite lookup_insert_eq. cbn. rewrite Hs, Hext. cbn.
    change (init _) with (registered svr).
    rewrite (addToCheck_spec p probe _ (registered svr) (wrap (Second * getCheckTimeout svr)));
      [| apply lookup_insert_eq | reflexivity].
    unfold store_svr. cbn. rewrite !insert_insert_eq. reflexivity.
Qed.

Lemma AddNewServer_registers_witness :
  exists (r' : RouteTable) (s' : Server),
    AddNewServer 1%positive probe_500 table_a = Done (None, r') /\
    svr_store r' !! 1%positive = Some s' /\
    prevStatus s' = Down /\ circuit s' = CircuitOpen /\ Status s' = Down.
Proof.
  destruct (AddNewServer_registers 1%positive probe_500 table_a server_a eq_refl eq_refl)
    as (_ & _ & _ & r' & s' & Hrun & _ & Hs' & _ & Hps & Hci & Hst & _ & _).
  exists r', s'. repeat split; assumption.
Defined.

(** ** Updates of the clusters a server is bound to *)

Lemma range_binded_store (f : Cluster -> Cluster) (binded : gmap string loc) (r : RouteTable) :
  range_binded f binded r
  = set_cluster_store
      (foldl (fun h p => alter f p h) (cluster_store r) (map_to_list binded).*2) r.
Proof.
  unfold range_binded. generalize ((map_to_list binded).*2). intros ls.
  revert r. induction ls as [|a ls IH]; intros r; cbn.
  - destruct r; reflexivity.
  - rewrite IH. reflexivity.
Qed.

Lemma foldl_alter_notin (f : Cluster -> Cluster) (ls : list loc) (h : gmap loc Cluster) (q : loc) :
  q ∉ ls -> foldl (fun h p => alter f p h) h ls !! q = h !! q.
Proof.
  induction ls as [|a ls IH] using rev_ind; intros Hq; [reflexivity|].
  rewrite foldl_snoc. rewrite not_elem_of_app, list_elem_of_singleton in Hq.
  destruct Hq as [Hq Hne]. rewrite lookup_alter_ne by congruence. apply IH, Hq.
Qed.

Lemma foldl_alter_elem (f : Cluster -> Cluster) (P : Cluster -> Prop) :
  (forall c, P (f c)) ->
  forall (ls : list loc) (h : gmap loc Cluster) (q : loc) (c : Cluster),
    q ∈ ls -> foldl (fun h p => alter f p h) h ls !! q = Some c -> P c.
Proof.
  intros HP ls. induction ls as [|a ls IH] using rev_ind; intros h q c Hq Hl.
  - inversion Hq.
  - rewrite foldl_snoc in Hl. destruct (decide (a = q)) as [->|Hne].
    + rewrite lookup_alter_eq in Hl.
      destruct (foldl _ h ls !! q) as [c0|]; simplify_eq/=. apply HP.
    + rewrite lookup_alter_ne in Hl by assumption.
      rewrite elem_of_app, list_elem_of_singleton in Hq.
      destruct Hq as [Hq|Hq]; [|congruence]. eapply IH; eassumption.
Qed.

Lemma foldl_alter_dom (f : Cluster -> Cluster) (ls : list loc) (h : gmap loc Cluster) (q : loc) :
  is_Some (foldl (fun h p => alter f p h) h ls !! q) <-> is_Some (h !! q).
Proof.
  induction ls as [|a ls IH] using rev_ind; [reflexivity|].
  rewrite foldl_snoc. destruct (decide (a = q)) as [->|Hne].
  - rewrite lookup_alter_eq, <- IH. rewrite fmap_is_Some. reflexivity.
  - rewrite lookup_alter_ne by assumption. exact IH.
Qed.

Lemma changed_spec (r : RouteTable) (p : loc) (rest : list loc) (s : Server) :
  evtChan r = p :: rest -> svr_store r !! p = Some s ->
  changed r
  = Some (Done (if statusChanged s
                then range_binded
                       (if Status s =? Up then Cluster_bind (Addr s)
                        else Cluster_unbind (Addr s))
                       (default ∅ (mapping r !! Addr s)) (set_evtChan rest r)
                else set_evtChan rest r)).
Proof.
  intros He Hp. unfold changed, deref_svr. rewrite He. cbn. rewrite Hp. cbn.
  destruct (statusChanged s); [|reflexivity].
  destruct (Status s =? Up); reflexivity.
Qed.

(** The first check of a server, the one [AddNewServer] runs: the table
    it leaves, the server it stores, and the channel, which it does not
    touch. *)
Lemma AddNewServer_first_check (p : loc) (probe : ProbeResult) (r : RouteTable) (svr : Server) :
  svr_store r !! p = Some svr -> svrs r !! Addr svr = None ->
  exists r',
    AddNewServer p probe r = Done (None, r') /\
    svr_store r' !! p
    = Some (if External svr then changeTo Up (registered svr)
            else probed (registered svr) probe) /\
    evtChan r' = evtChan r.
Proof.
  intros Hp Hs. unfold AddNewServer, deref_svr. rewrite Hp. cbn. rewrite Hs.
  fold (registered svr).
  destruct (External svr) eqn:Hext; cbn.
  - eexists. split; [reflexivity|]. cbn. rewrite !lookup_insert_eq. split; reflexivity.
  - rewrite (addToCheck_spec p probe _ (registered svr) (wrap (Second * getCheckTimeout svr)));
      [| apply lookup_insert_eq | reflexivity].
    cbn. eexists. split; [reflexivity|]. cbn. rewrite !lookup_insert_eq. split; reflexivity.
Qed.



Lemma AddNewServer_table_a :
  AddNewServer 1%positive probe_500 table_a = Done (None, table_a_down).
Proof. vm_compute. reflexivity. Qed.


(** ** Deleting a server *)

Lemma DeleteServer_spec (addr : string) (r : RouteTable) (p : loc) (s : Server) :
  svrs r !! addr = Some p -> svr_store r !! p = Some s ->
  DeleteServer addr r
  = Done (None,
          range_binded (Cluster_unbind (Addr s)) (default ∅ (mapping r !! Addr s))
            (set_mapping (delete (Addr s) (mapping r))
               (removeFromCheck (stopCheck s)
                  (store_svr p (stopCheck s) (set_svrs (delete addr (svrs r)) r))))).
Proof.
  intros Ha Hp. unfold DeleteServer, deref_svr. rewrite Ha. cbn. rewrite Hp. reflexivity.
Qed.

Lemma Cluster_unbind_not_active (addr : string) (c : Cluster) :
  addr ∉ activeServers (Cluster_unbind addr c).
Proof.
  unfold Cluster_unbind. cbn. rewrite list_elem_of_filter. intros [Hne _]. congruence.
Qed.

(** C2, as the code has it.  Deleting a server that is present removes it
    from the server map, stops its checks and cancels its timer, drops
    its entry of the mapping, and removes it from the active servers of
    every cluster it was bound to (the cluster objects stay the same
    ones, and so does the cluster map).  The analyzer is not called: its
    state is the one before the call. *)
Theorem DeleteServer_removes (addr : string) (r : RouteTable) (p : loc) (s : Server) :
  svrs r !! addr = Some p -> svr_store r !! p = Some s ->
  exists r',
    DeleteServer addr r = Done (None, r') /\
    svrs r' !! addr = None /\
    checkStopped <$> svr_store r' !! p = Some true /\
    tw r' !! Addr s = None /\
    mapping r' !! Addr s = None /\
    (forall (binded : gmap string loc) (name : string) (pc : loc) (c' : Cluster),
        mapping r !! Addr s = Some binded -> binded !! name = Some pc ->
        cluster_store r' !! pc = Some c' -> Addr s ∉ activeServers c') /\
    (forall pc : loc, is_Some (cluster_store r' !! pc) <-> is_Some (cluster_store r !! pc)) /\
    clusters r' = clusters r /\
    analysiser r' = analysiser r.
Proof.
  intros Ha Hp. rewrite (DeleteServer_spec addr r p s Ha Hp).
  eexists. split; [reflexivity|].
  rewrite range_binded_store. cbn.
  split; [apply lookup_delete_eq|].
  split; [rewrite lookup_insert_eq; reflexivity|].
  split; [apply lookup_delete_eq|].
  split; [apply lookup_delete_eq|].
  split; [|split; [|split; reflexivity]].
  - intros binded name pc c' Hb Hn Hc. rewrite Hb in Hc. cbn in Hc.
    eapply (foldl_alter_elem (Cluster_unbind (Addr s)) (fun c => Addr s ∉ activeServers c));
      [apply Cluster_unbind_not_active | | exact Hc].
    apply list_elem_of_fmap. exists (name, pc). split; [reflexivity|].
    apply elem_of_map_to_list, Hn.
  - intros pc. apply foldl_alter_dom.
Qed.

Lemma table_b_reached :
  ('(_, r) ← AddNewServer 1%positive probe_ok table_b0;
   '(_, r) ← AddNewCluster 1%positive r;
   Bind "10.0.0.1:80" "c1" r) = Done (None, table_b).
Proof. vm_compute. reflexivity. Qed.

Lemma DeleteServer_removes_witness :
  exists r', DeleteServer "10.0.0.1:80" table_b = Done (None, r') /\
             svrs r' !! "10.0.0.1:80" = None /\
             tw r' !! "10.0.0.1:80" = None /\
             analysiser r' = analysiser table_b.
Proof.
  destruct (DeleteServer_removes "10.0.0.1:80" table_b 1%positive server_a_up eq_refl eq_refl)
    as (r' & Hrun & Hsv & _ & Htw & _ & _ & _ & _ & Han).
  exists r'. repeat split; assumption.
Defined.

(** C2 as stated fails on its last part: after the deletion of the server
    the analyzer still holds the windows of the server. *)
Lemma DeleteServer_keeps_analysis :
  exists r',
    DeleteServer "10.0.0.1:80" table_b = Done (None, r') /\
    svrs r' !! "10.0.0.1:80" = None /\
    activeServers <$> cluster_store r' !! 1%positive = Some [] /\
    analysiser table_b !! "10.0.0.1:80" = Some [1; 10] /\
    analysiser r' !! "10.0.0.1:80" = Some [1; 10].
Proof.
  eexists. split; [vm_compute; reflexivity|]. repeat split.
Qed.

(** ** Adding and deleting twice *)

Lemma alookup_ainsert_eq {V : Type} (k : string) (v : V) (m : list (string * V)) :
  alookup k (ainsert k v m) = Some v.
Proof.
  induction m as [|[k' v'] m IH]; cbn.
  - rewrite String.eqb_refl. reflexivity.
  - destruct (String.eqb_spec k k') as [->|Hne]; cbn.
    + rewrite String.eqb_refl. reflexivity.
    + destruct (String.eqb_spec k k'); [congruence | exact IH].
Qed.

Lemma alookup_adelete_eq {V : Type} (k : string) (m : list (string * V)) :
  alookup k (adelete k m) = None.
Proof.
  induction m as [|[k' v'] m IH]; cbn; [reflexivity|].
  destruct (String.eqb_spec k k') as [->|Hne]; cbn; [exact IH|].
  destruct (String.eqb_spec k k'); [congruence | exact IH].
Qed.

Lemma alookup_adelete_ne {V : Type} (k k0 : string) (m : list (string * V)) :
  k <> k0 -> alookup k (adelete k0 m) = alookup k m.
Proof.
  intros Hne. induction m as [|[k' v'] m IH]; cbn; [reflexivity|].
  destruct (String.eqb_spec k0 k') as [->|Hne']; cbn.
  - destruct (String.eqb_spec k k'); [congruence | exact IH].
  - destruct (String.eqb_spec k k'); [reflexivity | exact IH].
Qed.

Lemma alookup_ainsert_ne {V : Type} (k k0 : string) (v : V) (m : list (string * V)) :
  k <> k0 -> alookup k (ainsert k0 v m) = alookup k m.
Proof.
  intros Hne. induction m as [|[k' v'] m IH]; cbn.
  - destruct (String.eqb_spec k k0); [congruence | reflexivity].
  - destruct (String.eqb_spec k0 k') as [->|Hne']; cbn.
    + destruct (String.eqb_spec k k'); [congruence|]. apply alookup_adelete_ne, Hne.
    + destruct (String.eqb_spec k k'); [reflexivity | exact IH].
Qed.

Lemma length_append (s1 s2 : string) :
  String.length (s1 ++ s2) = (String.length s1 + String.length s2)%nat.
Proof.
  induction s1 as [|a s1 IH]; [reflexivity|].
  change (S (String.length (s1 ++ s2)) = S (String.length s1 + String.length s2)).
  now rewrite IH.
Qed.

(** With the key laid out as [<url>-<method>], the key of an API is never
    its URL. *)
Lemma prefixEnv_key_not_url (url method : string) :
  getAPIKey (ModelEnv := prefixEnv) url method <> url.
Proof.
  cbn. intros E. apply (f_equal String.length) in E.
  rewrite !length_append in E. change (String.length "-") with 1%nat in E. lia.
Qed.

(** The entities whose presence test and entry use the same key: the
    second addition is refused, the second deletion finds nothing, and
    the refused call leaves the table as it is. *)
Lemma AddNewServer_exists (p q : loc) (probe : ProbeResult) (r : RouteTable) (s : Server) :
  svr_store r !! p = Some s -> svrs r !! Addr s = Some q ->
  AddNewServer p probe r = Done (Some ErrServerExists, r).
Proof.
  intros Hp Hs. unfold AddNewServer, deref_svr. rewrite Hp. cbn. rewrite Hs. reflexivity.
Qed.

Lemma AddNewServer_new_lookup (p : loc) (probe : ProbeResult) (r r1 : RouteTable) :
  AddNewServer p probe r = Done (None, r1) ->
  exists s1, svr_store r1 !! p = Some s1 /\ svrs r1 !! Addr s1 = Some p.
Proof.
  unfold AddNewServer, deref_svr.
  destruct (svr_store r !! p) as [svr|] eqn:Hp; [|discriminate]. cbn.
  destruct (svrs r !! Addr svr) eqn:Hs; [discriminate|].
  fold (registered svr).
  destruct (External svr) eqn:Hext; cbn.
  - intros Hr. injection Hr as Hr. subst r1.
    exists (changeTo Up (registered svr)).
    split; cbn; apply lookup_insert_eq.
  - rewrite (addToCheck_spec p probe _ (registered svr) (wrap (Second * getCheckTimeout svr)));
      [| apply lookup_insert_eq | reflexivity].
    cbn. intros Hr. injection Hr as Hr. subst r1.
    exists (probed (registered svr) probe).
    split; cbn; [apply lookup_insert_eq|].
    destruct (probed_status (registered svr) probe) as (_ & _ & _ & Had).
    rewrite Had. apply lookup_insert_eq.
Qed.

Lemma AddNewServer_twice (p : loc) (probe probe' : ProbeResult) (r r1 : RouteTable) :
  AddNewServer p probe r = Done (None, r1) ->
  AddNewServer p probe' r1 = Done (Some ErrServerExists, r1).
Proof.
  intros Hr. destruct (AddNewServer_new_lookup p probe r r1 Hr) as (s1 & Hp & Hs).
  exact (AddNewServer_exists p p probe' r1 s1 Hp Hs).
Qed.

Lemma DeleteServer_twice (addr : string) (r r1 : RouteTable) :
  DeleteServer addr r = Done (None, r1) ->
  DeleteServer addr r1 = Done (Some ErrServerNotFound, r1).
Proof.
  unfold DeleteServer at 1, deref_svr.
  destruct (svrs r !! addr) as [p|] eqn:Ha; [|discriminate]. cbn.
  destruct (svr_store r !! p) as [s|] eqn:Hp; [|discriminate]. cbn.
  intros [= <-]. unfold DeleteServer. rewrite range_binded_store. cbn.
  rewrite lookup_delete_eq. reflexivity.
Qed.

Lemma AddNewCluster_twice (p : loc) (r r1 : RouteTable) :
  AddNewCluster p r = Done (None, r1) ->
  AddNewCluster p r1 = Done (Some ErrClusterExists, r1).
Proof.
  unfold AddNewCluster at 1, deref_cluster.
  destruct (cluster_store r !! p) as [c|] eqn:Hp; [|discriminate]. cbn.
  destruct (clusters r !! Name c) eqn:Hc; [discriminate|].
  intros [= <-]. unfold AddNewCluster, deref_cluster. cbn. rewrite Hp. cbn.
  rewrite lookup_insert_eq. reflexivity.
Qed.

Section Twice.
Context {Request : Type} {M : ModelEnv Request}.

Lemma AddNewRouting_twice (routing : Routing) (r r1 : RouteTable) :
  AddNewRouting routing r = (None, r1) ->
  AddNewRouting routing r1 = (Some ErrRoutingExists, r1).
Proof.
  unfold AddNewRouting at 1.
  destruct (routing_Check routing) eqn:Hc; [discriminate|].
  destruct (alookup (ID routing) (routings r)) eqn:Hl; [discriminate|].
  intros [= <-]. unfold AddNewRouting. rewrite Hc. cbn.
  rewrite alookup_ainsert_eq. reflexivity.
Qed.

Lemma DeleteRouting_twice (id : string) (r r1 : RouteTable) :
  DeleteRouting id r = (None, r1) ->
  DeleteRouting id r1 = (Some ErrRoutingNotFound, r1).
Proof.
  unfold DeleteRouting at 1.
  destruct (alookup id (routings r)) eqn:Hl; [|discriminate].
  intros [= <-]. unfold DeleteRouting. cbn. rewrite alookup_adelete_eq. reflexivity.
Qed.

Lemma DeleteAPI_twice (url method : string) (r r1 : RouteTable) :
  DeleteAPI url method r = (None, r1) ->
  DeleteAPI url method r1 = (Some ErrAPINotFound, r1).
Proof.
  unfold DeleteAPI at 1.
  destruct (alookup (getAPIKey url method) (apis r)) eqn:Hl; [|discriminate].
  intros [= <-]. unfold DeleteAPI. cbn. rewrite alookup_adelete_eq. reflexivity.
Qed.

(** C4 at the APIs.  [AddNewAPI] looks for the API under its URL and
    stores it under [getAPIKey] of its URL and method: when that key is
    not the URL (it encodes the method too) and parsing leaves URL and
    method as they are, adding the same API a second time is not
    refused; the call returns no error and writes the entry again. *)
Theorem AddNewAPI_twice_accepted (api : API) (r r1 : RouteTable) :
  URL (api_Parse api) = URL api -> Method (api_Parse api) = Method api ->
  getAPIKey (URL api) (Method api) <> URL api ->
  AddNewAPI api r = (None, r1) ->
  AddNewAPI api r1
  = (None, set_apis (ainsert (getAPIKey (URL api) (Method api)) (api_Parse api) (apis r1)) r1)
  /\ fst (AddNewAPI api r1) <> Some ErrAPIExists.
Proof.
  intros Hu Hm Hkey. unfold AddNewAPI at 1.
  destruct (alookup (URL api) (apis r)) eqn:Hl; [discriminate|].
  intros Hr. injection Hr as Hr. subst r1. unfold AddNewAPI. cbn. rewrite Hu, Hm.
  rewrite alookup_ainsert_ne by (intros E; symmetry in E; exact (Hkey E)).
  rewrite Hl. split; [reflexivity | discriminate].
Qed.
End Twice.

Lemma AddNewAPI_twice_accepted_witness :
  AddNewAPI (M := prefixEnv) api_hello NewRouteTable
  = (None, set_apis [("/hello-GET", api_hello)] NewRouteTable) /\
  AddNewAPI (M := prefixEnv) api_hello (set_apis [("/hello-GET", api_hello)] NewRouteTable)
  = (None, set_apis [("/hello-GET", api_hello)] NewRouteTable).
Proof.
  split; [reflexivity|].
  refine (proj1 (AddNewAPI_twice_accepted (M := prefixEnv) api_hello NewRouteTable
                   (set_apis [("/hello-GET", api_hello)] NewRouteTable)
                   eq_refl eq_refl _ eq_refl)).
  intros E. vm_compute in E. discriminate E.
Defined.

(** ** Selection *)

Section Selection.
Context {Request : Type} {M : ModelEnv Request}.

Lemma range_routings_none (req : Request) (r : RouteTable)
    (todo : list (string * Routing)) (src : option loc) :
  (forall k routing, (k, routing) ∈ todo -> routing_Matches routing req = false) ->
  range_routings req r todo src = src.
Proof.
  induction todo as [|[k routing] todo IH]; intros Hno; cbn; [reflexivity|].
  rewrite (Hno k routing) by apply list_elem_of_here.
  apply IH. intros k' routing' Hin. apply (Hno k'). apply list_elem_of_further, Hin.
Qed.

(** The routing that decides: the first one that matches. *)
Lemma range_routings_first (req : Request) (r : RouteTable)
    (before after : list (string * Routing)) (k : string) (routing : Routing)
    (src : option loc) :
  (forall k' routing', (k', routing') ∈ before -> routing_Matches routing' req = false) ->
  routing_Matches routing req = true ->
  range_routings req r (before ++ (k, routing) :: after) src
  = clusters r !! RoutingClusterName routing.
Proof.
  induction before as [|[k0 r0] before IH]; intros Hno Hm; cbn.
  - rewrite Hm. reflexivity.
  - rewrite (Hno k0 r0) by apply list_elem_of_here.
    apply IH; [|exact Hm].
    intros k' routing' Hin. apply (Hno k'). apply list_elem_of_further, Hin.
Qed.

(** The cluster the selection of a node goes to is the cluster of the
    node or the cluster of a routing. *)
Lemma range_routings_cases (req : Request) (r : RouteTable)
    (todo : list (string * Routing)) (src : option loc) :
  range_routings req r todo src = src \/
  exists k routing, (k, routing) ∈ todo /\
    range_routings req r todo src = clusters r !! RoutingClusterName routing.
Proof.
  induction todo as [|[k routing] todo IH]; cbn; [left; reflexivity|].
  destruct (routing_Matches routing req).
  - right. exists k, routing. split; [apply list_elem_of_here | reflexivity].
  - destruct IH as [IH | (k' & routing' & Hin & IH)]; [left; exact IH|].
    right. exists k', routing'. split; [apply list_elem_of_further, Hin | exact IH].
Qed.

(** The selection of a server in a cluster that exists returns. *)
Lemma selectServer_Done (req : Request) (r : RouteTable) (p : loc) (c : Cluster) :
  cluster_store r !! p = Some c ->
  exists svr, selectServer req (Some p) r = Done svr.
Proof.
  intros Hc. unfold selectServer, doSelectServer. cbn. rewrite Hc. cbn. eexists. reflexivity.
Qed.

(** The selection of a server in no cluster panics. *)
Lemma selectServer_nil (req : Request) (r : RouteTable) : selectServer req None r = Panic.
Proof. reflexivity. Qed.

(** What the loop over the nodes gives. *)
Lemma range_nodes_Panic (req : Request) (r : RouteTable) (api : API)
    (nodes : list Node) (node : Node) :
  node ∈ nodes ->
  selectServer req (selectClusterByRouting req (clusters r !! ClusterName node) r) r = Panic ->
  range_nodes req r api nodes = Panic.
Proof.
  intros Hin Hp. induction nodes as [|n nodes IH]; [inversion Hin|].
  cbn [range_nodes]. apply elem_of_cons in Hin. destruct Hin as [<- | Hin].
  - rewrite Hp. reflexivity.
  - destruct (selectServer req
                (selectClusterByRouting req (clusters r !! ClusterName n) r) r) as [svr|];
      [|reflexivity].
    cbn. rewrite (IH Hin). reflexivity.
Qed.

Lemma range_nodes_Done (req : Request) (r : RouteTable) (api : API) (nodes : list Node) :
  (forall node, node ∈ nodes ->
     exists svr,
       selectServer req (selectClusterByRouting req (clusters r !! ClusterName node) r) r
       = Done svr) ->
  exists results,
    range_nodes req r api nodes = Done results /\
    map RNode results = map Some nodes /\
    Forall (fun x => RAPI x = api /\ Err x = None /\ Code x = 0 /\ Res x = None /\
                     Merge x = false) results.
Proof.
  induction nodes as [|n nodes IH]; intros Hall.
  - exists []. split; [reflexivity|]. split; [reflexivity | apply Forall_nil_2].
  - destruct (Hall n) as [svr Hsvr]; [apply list_elem_of_here|].
    destruct IH as (results & Hrun & Hnodes & Hall');
      [intros node Hin; apply Hall, list_elem_of_further, Hin|].
    cbn [range_nodes]. rewrite Hsvr. cbn. rewrite Hrun. cbn.
    eexists. split; [reflexivity|]. split; [cbn; now rewrite Hnodes|].
    apply Forall_cons. split; [repeat split | exact Hall'].
Qed.

(** In a table that holds every cluster its APIs and routings name, the
    selection for an API of the table returns. *)
Lemma results_of_Done (req : Request) (r : RouteTable) (k : string) (api : API) :
  clusters_exist r -> (k, api) ∈ apis r ->
  exists results, results_of req r api = Done results /\
                  map RNode results = map Some (Nodes api).
Proof.
  intros [Hnodes Hroutings] Hin.
  destruct (range_nodes_Done req r api (Nodes api)) as (results & Hrun & Hn & _).
  - intros node Hnode. unfold selectClusterByRouting.
    destruct (range_routings_cases req r (routings r) (clusters r !! ClusterName node))
      as [-> | (k' & routing & Hr & ->)].
    + destruct (Hnodes k api node Hin Hnode) as (p & c & -> & Hc).
      exact (selectServer_Done req r p c Hc).
    + destruct (Hroutings k' routing Hr) as (p & c & -> & Hc).
      exact (selectServer_Done req r p c Hc).
  - exists results. split; assumption.
Qed.

(** What the loop of [Select] leaves in [results]. *)
Lemma range_apis_none (req : Request) (r : RouteTable) (todo : list (string * API))
    (results : option (list RouteResult)) :
  (forall k api, (k, api) ∈ todo -> api_matches api req = false) ->
  range_apis req r todo results = Done results.
Proof.
  revert results. induction todo as [|[k api] todo IH]; intros results Hno; cbn; [reflexivity|].
  rewrite (Hno k api) by apply list_elem_of_here. cbn.
  apply IH. intros k' api' Hin. apply (Hno k'). apply list_elem_of_further, Hin.
Qed.

Lemma range_apis_last (req : Request) (r : RouteTable)
    (before after : list (string * API)) (k : string) (api : API)
    (results res : option (list RouteResult)) :
  api_matches api req = true ->
  (forall k' api', (k', api') ∈ after -> api_matches api' req = false) ->
  range_apis req r (before ++ (k, api) :: after) results = Done res ->
  exists rs, results_of req r api = Done rs /\ res = Some rs.
Proof.
  revert results. induction before as [|[k0 a0] before IH]; intros results Hm Hno Hrun;
    cbn in Hrun.
  - rewrite Hm in Hrun. destruct (results_of req r api) as [rs|]; [|discriminate].
    cbn in Hrun. rewrite (range_apis_none req r after _ Hno) in Hrun.
    injection Hrun as <-. exists rs. split; reflexivity.
  - destruct (if api_matches a0 req then _ else _) as [results'|]; [|discriminate].
    cbn in Hrun. exact (IH results' Hm Hno Hrun).
Qed.

Lemma range_apis_Done (req : Request) (r : RouteTable) (todo : list (string * API))
    (results : option (list RouteResult)) :
  (forall k api, (k, api) ∈ todo -> api_matches api req = true ->
                 exists rs, results_of req r api = Done rs) ->
  exists res, range_apis req r todo results = Done res.
Proof.
  revert results. induction todo as [|[k api] todo IH]; intros results Hall; cbn.
  - exists results. reflexivity.
  - destruct (api_matches api req) eqn:Hm.
    + destruct (Hall k api) as [rs Hrs]; [apply list_elem_of_here | exact Hm |].
      rewrite Hrs. cbn. apply IH. intros k' api' Hin. apply (Hall k'), list_elem_of_further, Hin.
    + cbn. apply IH. intros k' api' Hin. apply (Hall k'), list_elem_of_further, Hin.
Qed.

Lemma range_apis_Panic (req : Request) (r : RouteTable) (todo : list (string * API))
    (results : option (list RouteResult)) (k : string) (api : API) :
  (k, api) ∈ todo -> api_matches api req = true -> results_of req r api = Panic ->
  range_apis req r todo results = Panic.
Proof.
  intros Hin Hm Hp. revert results.
  induction todo as [|[k0 a0] todo IH]; intros results; [inversion Hin|].
  cbn [range_apis]. apply elem_of_cons in Hin. destruct Hin as [[= <- <-] | Hin].
  - rewrite Hm, Hp. reflexivity.
  - destruct (if api_matches a0 req then _ else _) as [results'|]; [|reflexivity].
    cbn. apply (IH Hin).
Qed.


(** C3 on the code.  [Select] does not leave its loop at the first API
    that matches: when two APIs match the request, the results it
    returns are those of the one visited later, if none after it
    matches; the results built for the first are dropped.  In a table
    that holds every cluster its APIs and routings name, [Select]
    returns. *)
Theorem Select_last_match_wins (req : Request) (r : RouteTable)
    (l1 l2 l3 : list (string * API)) (k1 k2 : string) (a1 a2 : API) :
  apis r = (l1 ++ (k1, a1) :: l2 ++ (k2, a2) :: l3)%list ->
  api_matches a1 req = true -> api_matches a2 req = true ->
  (forall k api, (k, api) ∈ l3 -> api_matches api req = false) ->
  (forall res, Select req r = Done res ->
     exists rs2, results_of req r a2 = Done rs2 /\ res = Some rs2) /\
  (clusters_exist r ->
     exists rs1 rs2,
       results_of req r a1 = Done rs1 /\ results_of req r a2 = Done rs2 /\
       Select req r = Done (Some rs2)).
Proof.
  intros Ha H1 H2 Hno.
  assert (Hlast : forall res, Select req r = Done res ->
            exists rs2, results_of req r a2 = Done rs2 /\ res = Some rs2).
  { intros res Hrun. unfold Select in Hrun. rewrite Ha in Hrun.
    replace (l1 ++ (k1, a1) :: l2 ++ (k2, a2) :: l3)%list
      with ((l1 ++ (k1, a1) :: l2) ++ (k2, a2) :: l3)%list in Hrun
      by (rewrite <- app_assoc; reflexivity).
    exact (range_apis_last req r _ l3 k2 a2 None res H2 Hno Hrun). }
  split; [exact Hlast|].
  intros Hex.
  destruct (results_of_Done req r k1 a1 Hex) as (rs1 & Hrs1 & _).
  { rewrite Ha. apply elem_of_app. right. apply list_elem_of_here. }
  destruct (range_apis_Done req r (apis r) None) as [res Hres].
  { intros k api Hin _. destruct (results_of_Done req r k api Hex Hin) as (rs & Hrs & _).
    exists rs. exact Hrs. }
  destruct (Hlast res Hres) as (rs2 & Hrs2 & ->).
  exists rs1, rs2. split; [exact Hrs1|]. split; [exact Hrs2 | exact Hres].
Qed.
End Selection.

Lemma clusters_exist_table_c (l : list (string * API)) :
  (forall k api node, (k, api) ∈ l -> node ∈ Nodes api ->
                      ClusterName node = "c1" \/ ClusterName node = "c2") ->
  clusters_exist (set_apis l table_c).
Proof.
  intros Hl. split.
  - intros k api node Hin Hnode. destruct (Hl k api node Hin Hnode) as [-> | ->].
    + exists 1%positive, (Build_Cluster "c1" "ROUNDROBIN" ["10.0.0.1:80"]).
      split; reflexivity.
    + exists 2%positive, cluster_c2. split; reflexivity.
  - intros k routing Hin. inversion Hin.
Qed.



(** A cluster that exists and has no active server gives a result
    without a server: [Select] returns. *)
Lemma Select_no_active_server :
  Select (M := prefixEnv) "/hel" table_hello_hel
  = Done (Some [Build_RouteResult api_hel (Some (Build_Node "c2" "" "")) None None 0 None
                  false]).
Proof. reflexivity. Qed.

Lemma Select_last_match_wins_witness :
  exists rs1 rs2,
    results_of (M := prefixEnv) "/hello" table_hello_hel api_hello = Done rs1 /\
    results_of (M := prefixEnv) "/hello" table_hello_hel api_hel = Done rs2 /\
    Select (M := prefixEnv) "/hello" table_hello_hel = Done (Some rs2) /\
    rs1 <> rs2.
Proof.
  destruct (Select_last_match_wins (M := prefixEnv) "/hello" table_hello_hel
              [] [] [] "/hello-GET" "/hel-GET" api_hello api_hel) as [_ Hsel].
  - reflexivity.
  - reflexivity.
  - reflexivity.
  - intros k api Hin. inversion Hin.
  - destruct Hsel as (rs1 & rs2 & H1 & H2 & Hrun).
    + apply clusters_exist_table_c. intros k api node Hin Hnode.
      apply elem_of_cons in Hin. destruct Hin as [[= -> ->] | Hin].
      * left. apply list_elem_of_singleton in Hnode. subst node. reflexivity.
      * apply list_elem_of_singleton in Hin. injection Hin as -> ->.
        right. apply list_elem_of_singleton in Hnode. subst node. reflexivity.
    + exists rs1, rs2. split; [exact H1|]. split; [exact H2|]. split; [exact Hrun|].
      injection H1 as <-. injection H2 as <-. discriminate.
Defined.

(** In whichever order the two APIs are visited, the results are those
    of the API visited last, never those of the first. *)
Lemma Select_two_orders :
  Select (M := prefixEnv) "/hello" table_hello_hel
  = Done (Some [Build_RouteResult api_hel (Some (Build_Node "c2" "" "")) None None 0 None
                  false]) /\
  Select (M := prefixEnv) "/hello" table_hel_hello
  = Done (Some [Build_RouteResult api_hello (Some (Build_Node "c1" "" "")) (Some 1%positive)
                  None 0 None false]).
Proof. split; reflexivity. Qed.


(** C9 as stated fails: the scheme of [server_ff] is the byte [FF], which
    is no UTF-8; the encoder writes [U+FFFD] for it, and the server that
    comes back has the three bytes of [U+FFFD] as its scheme. *)
Lemma UnMarshalServer_Marshal_invalid_utf8 :
  Server_ints server_ff /\
  Schema server_ff = byte_FF /\
  Schema (UnMarshalServer (Marshal server_ff)) = RuneError_utf8 /\
  UnMarshalServer (Marshal server_ff)
  <> set_CheckTimeout
       (if CheckTimeout server_ff =? 0 then DefaultCheckTimeoutInSeconds
        else CheckTimeout server_ff)
       (exported server_ff).
Proof.
  split; [unfold Server_ints, in_int; repeat split; vm_compute; discriminate|].
  split; [reflexivity|]. split; [reflexivity|].
  intros E. apply (f_equal Schema) in E. vm_compute in E. discriminate.
Qed.

(** ** The proxy *)

Lemma append_assoc (s1 s2 s3 : string) : (s1 ++ s2) ++ s3 = s1 ++ (s2 ++ s3).
Proof.
  induction s1 as [|a s1 IH]; [reflexivity|].
  change (String a ((s1 ++ s2) ++ s3) = String a (s1 ++ (s2 ++ s3))).
  now rewrite IH.
Qed.

Lemma append_nil_r (s : string) : s ++ "" = s.
Proof.
  induction s as [|a s IH]; [reflexivity|].
  change (String a (s ++ "") = String a s). now rewrite IH.
Qed.

Section ProxyProperties.
Context {Request W : Type} {M : ModelEnv Request} {E : ProxyEnv Request W}.

Lemma afterBackend_canceled (c : context Request) (res : option Response) (e : error) (w : W) :
  HasPrefix e ErrPrefixRequestCancel = true ->
  afterBackend c res (Some e) w
  = Done (set_Code StatusServiceUnavailable (set_Err (Some e) (set_Res res (c_result c))), w).
Proof.
  intros Hpre. unfold afterBackend. cbn. rewrite Hpre. cbn.
  destruct res; reflexivity.
Qed.

(** An error of another kind runs the post-error filters. *)
Lemma afterBackend_error (c : context Request) (res : option Response) (e : error) (w : W) :
  HasPrefix e ErrPrefixRequestCancel = false ->
  afterBackend c res (Some e) w
  = (let '(c', w') := doPostErrFilters (set_c_result (set_Res res (c_result c)) c) w in
     Done (set_Code StatusServiceUnavailable (set_Err (Some e) (c_result c')), w')).
Proof.
  intros Hpre. unfold afterBackend. cbn. rewrite Hpre. cbn.
  destruct (doPostErrFilters _ w) as [c' w']. destruct res; reflexivity.
Qed.
End ProxyProperties.

(** C8.  When the backend call of [doProxy] returns an error whose text
    begins with [request canceled], the post-error filters are not run:
    the state [doProxy] returns is the one the backend call left, the
    result is the one the pre-filters left with the response, the error
    and the code 503, and both are the same whatever the post-error
    filters are.  (The counters of failures are updated by post-error
    filters only, [ANALYSIS] among them.) *)
Theorem doProxy_request_canceled {Request W : Type} {E : ProxyEnv Request W}
    (ctx : RequestCtx Request) (result : RouteResult) (r : RouteTable) (w : W)
    (p : loc) (svr : Server) (outreq : Request) (filterName : string) (code : Z)
    (c1 : context Request) (w1 : W) (res : option Response) (e : error) (w2 : W) :
  Svr result = Some p -> svr_store r !! p = Some svr ->
  rewriteRequest ctx result svr = Some outreq ->
  doPreFilters (newContext r ctx outreq result) w = (filterName, code, None, c1, w1) ->
  client_Do (c_outreq c1) (Addr svr) w1 = (res, Some e, w2) ->
  HasPrefix e ErrPrefixRequestCancel = true ->
  doProxy ctx result r w
  = Done (set_Code StatusServiceUnavailable (set_Err (Some e) (set_Res res (c_result c1))), w2)
  /\ forall f : context Request -> W -> context Request * W,
       doProxy (E := with_postErr f E) ctx result r w = doProxy ctx result r w.
Proof.
  intros Hsvr Hp Hrw Hpre Hdo Hcancel.
  assert (Hrun : forall E' : ProxyEnv Request W,
             (E' = E \/ exists f, E' = with_postErr f E) ->
             doProxy (E := E') ctx result r w
             = Done (set_Code StatusServiceUnavailable
                       (set_Err (Some e) (set_Res res (c_result c1))), w2)).
  { intros E' HE'.
    assert (Hrw' : rewriteRequest (E := E') ctx result svr = Some outreq)
      by (destruct HE' as [->|[f ->]]; exact Hrw).
    assert (Hpre' : doPreFilters (ProxyEnv := E') (newContext r ctx outreq result) w
                    = (filterName, code, None, c1, w1))
      by (destruct HE' as [->|[f ->]]; exact Hpre).
    assert (Hdo' : client_Do (ProxyEnv := E') (c_outreq c1) (Addr svr) w1
                   = (res, Some e, w2))
      by (destruct HE' as [->|[f ->]]; exact Hdo).
    unfold doProxy, deref_svr. rewrite Hsvr, Hp. cbn. rewrite Hrw', Hpre'. cbn.
    rewrite Hdo'.
    rewrite (afterBackend_canceled (E := E') _ res e w2 Hcancel). reflexivity. }
  split.
  - apply Hrun. left. reflexivity.
  - intros f. rewrite (Hrun (with_postErr f E)) by (right; exists f; reflexivity).
    symmetry. apply Hrun. left. reflexivity.
Qed.

Lemma doProxy_request_canceled_witness :
  doProxy (E := logEnv) (newCtx "/cancel") result_cancel table_b []
  = Done (set_Code StatusServiceUnavailable
            (set_Err (Some "request canceled while waiting for connection") result_cancel),
          ["pre"; "do"]).
Proof.
  exact (proj1 (doProxy_request_canceled (E := logEnv)
                  (newCtx "/cancel") result_cancel table_b [] 1%positive server_a_up
                  "/cancel" "" 0
                  (newContext table_b (newCtx "/cancel") "/cancel" result_cancel)
                  ["pre"] None "request canceled while waiting for connection"
                  ["pre"; "do"] eq_refl eq_refl eq_refl eq_refl eq_refl eq_refl)).
Defined.

(** For comparison: an error of another kind runs the post-error filters. *)
Lemma doProxy_refused_runs_postErr :
  doProxy (E := logEnv) (newCtx "/refused") result_refused table_b []
  = Done (set_Code StatusServiceUnavailable
            (set_Err (Some "dial tcp: connection refused") result_refused),
          ["pre"; "do"; "postErr"]).
Proof. reflexivity. Qed.

(** ** The merge response *)

Lemma elem_of_Header_Del (key : string) (h : ResponseHeader) (k v : string) :
  (k, v) ∈ Header_Del key h <-> (k, v) ∈ h /\ k <> key.
Proof. unfold Header_Del. rewrite list_elem_of_filter. cbn. tauto. Qed.

(** What stripping leaves: the fields of the response whose name is not
    one of [MergeRemoveHeaders]. *)
Lemma elem_of_strip_headers (h : ResponseHeader) (k v : string) :
  (k, v) ∈ strip_headers h <-> (k, v) ∈ h /\ k ∉ MergeRemoveHeaders.
Proof.
  change (strip_headers h)
    with (Header_Del "Date" (Header_Del "Content-Type" (Header_Del "Content-Length" h))).
  unfold MergeRemoveHeaders.
  rewrite !elem_of_Header_Del, !not_elem_of_cons.
  split; [intros [[[Hin H1] H2] H3] | intros (Hin & H1 & H2 & H3 & _)]; repeat split;
    try assumption.
  apply not_elem_of_nil.
Qed.

(** Copy after copy, the destination holds what the last copy brought. *)
Lemma foldl_CopyTo_last (h : ResponseHeader) (resps : list Response) (res_last : Response) :
  last resps = Some res_last ->
  foldl (fun h res => Header_CopyTo (strip_headers (Header res)) h) h resps
  = strip_headers (Header res_last).
Proof.
  destruct resps as [|res resps _] using rev_ind; [discriminate|].
  rewrite last_snoc. intros [= ->]. rewrite foldl_snoc. reflexivity.
Qed.

Lemma Header_Peek_SetContentType (v : string) (h : ResponseHeader) :
  Header_Peek "Content-Type" (Header_SetContentType v h) = Some v.
Proof. reflexivity. Qed.

Section Merge.
Context {Request W : Type} {M : ModelEnv Request} {E : ProxyEnv Request W}.

Lemma WriteString_WriteString (a b : string) (ctx : RequestCtx Request) :
  WriteString b (WriteString a ctx) = WriteString (a ++ b) ctx.
Proof. unfold WriteString, set_Response. cbn. rewrite append_assoc. reflexivity. Qed.

Lemma range_errors_none (ctx : RequestCtx Request) (results : list RouteResult) :
  Forall (fun x => Err x = None) results ->
  range_errors true ctx results = None.
Proof.
  induction 1 as [|x results Hx _ IH]; cbn; [reflexivity|]. rewrite Hx. exact IH.
Qed.

Lemma range_headers_spec (results : list RouteResult) (resps : list Response)
    (ctx : RequestCtx Request) :
  map Res results = map Some resps ->
  range_headers ctx results
  = Done (set_ctx_Header
            (foldl (fun h res => Header_CopyTo (strip_headers (Header res)) h)
               (Header (ctx_Response ctx)) resps) ctx).
Proof.
  revert resps ctx. induction results as [|x results IH]; intros [|res resps] ctx Hres;
    try discriminate.
  - cbn. destruct ctx as [req [code h body]]. reflexivity.
  - cbn in Hres. injection Hres as Hx Hrest. cbn. rewrite Hx.
    rewrite (IH resps _ Hrest). reflexivity.
Qed.

Lemma range_write_spec (results : list RouteResult) (nodes : list Node)
    (resps : list Response) (count index : nat) (ctx : RequestCtx Request) :
  map RNode results = map Some nodes -> map Res results = map Some resps ->
  count = (index + length results)%nat ->
  range_write count index ctx results = Done (WriteString (merge_members nodes resps) ctx).
Proof.
  revert nodes resps index ctx.
  induction results as [|x results IH]; intros [|node nodes] [|res resps] index ctx Hn Hr Hc;
    try discriminate.
  - cbn. unfold WriteString, set_Response. cbn. rewrite append_nil_r.
    destruct ctx as [req [code h body]]. reflexivity.
  - cbn in Hn, Hr. injection Hn as Hx Hn. injection Hr as Hy Hr.
    cbn [range_write]. rewrite Hx, Hy.
    assert (Hlen : length nodes = length results).
    { apply (f_equal length) in Hn. rewrite !length_map in Hn. congruence. }
    rewrite (IH nodes resps (S index) _ Hn Hr) by (cbn in Hc; lia).
    destruct results as [|x' results].
    + destruct nodes as [|n' nodes]; [|discriminate].
      replace (index <? count - 1)%nat with false
        by (symmetry; apply Nat.ltb_ge; cbn in Hc; lia).
      rewrite !WriteString_WriteString. cbn [merge_members]. unfold merge_member.
      rewrite !append_assoc. destruct resps; reflexivity.
    + destruct nodes as [|n' nodes]; [discriminate|].
      replace (index <? count - 1)%nat with true
        by (symmetry; apply Nat.ltb_lt; cbn in Hc; lia).
      rewrite !WriteString_WriteString. cbn [merge_members]. unfold merge_member.
      rewrite !append_assoc. reflexivity.
Qed.
End Merge.

Section MergeResponse.
Context {Request W : Type} {M : ModelEnv Request} {E : ProxyEnv Request W}.

Lemma doProxy_each_length (ctx : RequestCtx Request) (results0 results : list RouteResult)
    (r : RouteTable) (w w' : W) :
  doProxy_each ctx results0 r w = Done (results, w') -> length results = length results0.
Proof.
  revert results w w'. induction results0 as [|x results0 IH]; intros results w w' Hrun.
  - cbn in Hrun. injection Hrun as <- _. reflexivity.
  - cbn in Hrun.
    destruct (doProxy ctx (set_Merge true x) r w) as [[x' w1]|]; [|discriminate]. cbn in Hrun.
    destruct (doProxy_each ctx results0 r w1) as [[rest' w2]|] eqn:Hrest; [|discriminate].
    cbn in Hrun. injection Hrun as <- _. cbn. f_equal. exact (IH _ _ _ Hrest).
Qed.

End MergeResponse.


(** * Further properties of the code *)

(** ** The binds of a server *)

Lemma indexOf_from_notin (index : Z) (l : list string) (name : string) :
  name ∉ l -> indexOf_from index l name = -1.
Proof.
  revert index. induction l as [|a l IH]; intros index Hn; cbn; [reflexivity|].
  rewrite not_elem_of_cons in Hn. destruct Hn as [Hne Hn].
  destruct (String.eqb_spec a name) as [->|_]; [congruence|]. apply IH, Hn.
Qed.

Lemma indexOf_from_split (index : Z) (l1 l2 : list string) (name : string) :
  name ∉ l1 ->
  indexOf_from index (l1 ++ name :: l2) name = index + Z.of_nat (length l1).
Proof.
  revert index. induction l1 as [|a l1 IH]; intros index Hn; cbn.
  - rewrite String.eqb_refl. lia.
  - rewrite not_elem_of_cons in Hn. destruct Hn as [Hne Hn].
    destruct (String.eqb_spec a name) as [->|_]; [congruence|].
    rewrite (IH _ Hn). lia.
Qed.

Lemma indexOf_from_lower (index : Z) (l : list string) (name : string) :
  indexOf_from index l name = -1 \/ index <= indexOf_from index l name.
Proof.
  revert index. induction l as [|a l IH]; intros index; cbn; [left; reflexivity|].
  destruct (String.eqb a name); [right; lia|].
  destruct (IH (index + 1)) as [->|H]; [left; reflexivity | right; lia].
Qed.

(** The first occurrence of a name in a list. *)
Lemma first_occurrence (l : list string) (name : string) :
  name ∈ l -> exists l1 l2, l = (l1 ++ name :: l2)%list /\ name ∉ l1.
Proof.
  induction l as [|a l IH]; intros Hin; [inversion Hin|].
  destruct (decide (a = name)) as [->|Hne].
  - exists [], l. split; [reflexivity | apply not_elem_of_nil].
  - apply elem_of_cons in Hin. destruct Hin as [->|Hin]; [congruence|].
    destruct (IH Hin) as (l1 & l2 & -> & Hn).
    exists (a :: l1), l2. split; [reflexivity|].
    rewrite not_elem_of_cons. split; [congruence | exact Hn].
Qed.

(** [indexOf] answers [-1] exactly for a cluster the server is not bound
    to; for a cluster it is bound to, it answers the position of the
    first entry of that name. *)
Theorem indexOf_spec (s : Server) (clusterName : string) :
  (indexOf s clusterName = -1 <-> clusterName ∉ BindClusters s) /\
  (clusterName ∈ BindClusters s ->
   exists k : nat,
     indexOf s clusterName = Z.of_nat k /\
     BindClusters s !! k = Some clusterName /\
     forall j : nat, (j < k)%nat -> BindClusters s !! j <> Some clusterName).
Proof.
  unfold indexOf.
  assert (Hin : clusterName ∈ BindClusters s ->
                exists k : nat,
                  indexOf_from 0 (BindClusters s) clusterName = Z.of_nat k /\
                  BindClusters s !! k = Some clusterName /\
                  forall j : nat, (j < k)%nat -> BindClusters s !! j <> Some clusterName).
  { intros H. destruct (first_occurrence _ _ H) as (l1 & l2 & -> & Hn).
    exists (length l1). rewrite (indexOf_from_split 0 l1 l2 _ Hn).
    split; [lia|]. split.
    - rewrite lookup_app_r by lia. rewrite Nat.sub_diag. reflexivity.
    - intros j Hj Hl. rewrite lookup_app_l in Hl by lia.
      apply Hn. eapply list_elem_of_lookup_2, Hl. }
  split; [|exact Hin]. split.
  - intros Hidx Hmem. destruct (Hin Hmem) as (k & Hk & _). lia.
  - apply indexOf_from_notin.
Qed.

Lemma AddBind_bound (bind : Binding) (s : Server) :
  BindClusterName bind ∈ BindClusters s -> AddBind bind s = s.
Proof.
  intros Hin. unfold AddBind.
  destruct (proj2 (indexOf_spec s (BindClusterName bind)) Hin) as (k & -> & _).
  destruct (Z.eqb_spec (Z.of_nat k) (-1)); [lia | reflexivity].
Qed.

Lemma AddBind_unbound (bind : Binding) (s : Server) :
  BindClusterName bind ∉ BindClusters s ->
  AddBind bind s = set_BindClusters (BindClusters s ++ [BindClusterName bind]) s.
Proof.
  intros Hn. unfold AddBind.
  rewrite (proj2 (proj1 (indexOf_spec s (BindClusterName bind))) Hn). reflexivity.
Qed.

(** [AddBind] binds the server to the cluster, at the end of the list and
    once: the clusters bound before stay, in their order; a list without
    repetition stays one; binding again changes nothing. *)
Theorem AddBind_spec (bind : Binding) (s : Server) :
  (forall n, n ∈ BindClusters (AddBind bind s)
             <-> n ∈ BindClusters s \/ n = BindClusterName bind) /\
  (exists tail, BindClusters (AddBind bind s) = (BindClusters s ++ tail)%list) /\
  (NoDup (BindClusters s) -> NoDup (BindClusters (AddBind bind s))) /\
  AddBind bind (AddBind bind s) = AddBind bind s /\
  HasBind (AddBind bind s) = true.
Proof.
  destruct (decide (BindClusterName bind ∈ BindClusters s)) as [Hin|Hn].
  - rewrite (AddBind_bound bind s Hin), (AddBind_bound bind s Hin).
    split; [|split; [|split; [|split]]].
    + intros n. split; [tauto|]. intros [H| ->]; assumption.
    + exists []. rewrite app_nil_r. reflexivity.
    + tauto.
    + reflexivity.
    + unfold HasBind. destruct (BindClusters s); [inversion Hin | reflexivity].
  - rewrite (AddBind_unbound bind s Hn).
    split; [|split; [|split; [|split]]].
    + intros n. cbn. rewrite elem_of_app, list_elem_of_singleton. tauto.
    + exists [BindClusterName bind]. reflexivity.
    + intros Hnd. cbn. apply NoDup_app. split; [exact Hnd|]. split.
      * intros x Hx Hx'. apply list_elem_of_singleton in Hx'. subst x. exact (Hn Hx).
      * apply NoDup_singleton.
    + apply AddBind_bound. cbn. rewrite elem_of_app, list_elem_of_singleton. tauto.
    + unfold HasBind. cbn. destruct (BindClusters s); reflexivity.
Qed.

(** [RemoveBind] takes the first entry of the name out of the list and
    keeps the others in their order. *)
Lemma RemoveBind_first (clusterName : string) (s : Server) (l1 l2 : list string) :
  BindClusters s = (l1 ++ clusterName :: l2)%list -> clusterName ∉ l1 ->
  RemoveBind clusterName s = set_BindClusters (l1 ++ l2) s.
Proof.
  intros Hl Hn. unfold RemoveBind, indexOf. rewrite Hl.
  rewrite (indexOf_from_split 0 l1 l2 _ Hn).
  replace (0 <=? 0 + Z.of_nat (length l1)) with true by (symmetry; apply Z.leb_le; lia).
  replace (Z.to_nat (0 + Z.of_nat (length l1))) with (length l1) by lia.
  replace (Z.to_nat (0 + Z.of_nat (length l1) + 1)) with (S (length l1)) by lia.
  rewrite take_app_length.
  replace (drop (S (length l1)) (l1 ++ clusterName :: l2)) with l2; [reflexivity|].
  rewrite drop_app_ge by lia.
  replace (S (length l1) - length l1)%nat with 1%nat by lia. reflexivity.
Qed.

Lemma RemoveBind_unbound (clusterName : string) (s : Server) :
  clusterName ∉ BindClusters s -> RemoveBind clusterName s = s.
Proof.
  intros Hn. unfold RemoveBind.
  rewrite (proj2 (proj1 (indexOf_spec s clusterName)) Hn). reflexivity.
Qed.

(** On a list of binds without repetition (the lists [AddBind] builds),
    [RemoveBind] unbinds the server from the cluster and from no other,
    and the list stays without repetition; removing a cluster the server
    is not bound to changes nothing. *)
Theorem RemoveBind_spec (clusterName : string) (s : Server) :
  NoDup (BindClusters s) ->
  (clusterName ∉ BindClusters (RemoveBind clusterName s)) /\
  (forall n, n <> clusterName ->
     (n ∈ BindClusters (RemoveBind clusterName s) <-> n ∈ BindClusters s)) /\
  NoDup (BindClusters (RemoveBind clusterName s)) /\
  (clusterName ∉ BindClusters s -> RemoveBind clusterName s = s).
Proof.
  intros Hnd.
  destruct (decide (clusterName ∈ BindClusters s)) as [Hin|Hn].
  - destruct (first_occurrence _ _ Hin) as (l1 & l2 & Hl & Hn1).
    rewrite (RemoveBind_first clusterName s l1 l2 Hl Hn1). cbn.
    rewrite Hl in Hnd. rewrite Hl.
    apply NoDup_app in Hnd. destruct Hnd as (Hnd1 & Hdisj & Hnd2).
    apply NoDup_cons in Hnd2. destruct Hnd2 as [Hn2 Hnd2].
    split; [|split; [|split]].
    + rewrite elem_of_app. tauto.
    + intros n Hne. rewrite !elem_of_app, elem_of_cons. tauto.
    + apply NoDup_app. split; [exact Hnd1|]. split; [|exact Hnd2].
      intros x Hx Hx'. apply (Hdisj x Hx). apply list_elem_of_further, Hx'.
    + intros Habs. exfalso. apply Habs. rewrite <- Hl. exact Hin.
  - rewrite (RemoveBind_unbound clusterName s Hn).
    split; [exact Hn|]. split; [tauto|]. split; [exact Hnd | reflexivity].
Qed.

Lemma RemoveBind_spec_witness :
  let s := set_BindClusters ["c1"; "c2"; "c3"] server_a in
  BindClusters (RemoveBind "c2" s) = ["c1"; "c3"] /\
  "c2" ∉ BindClusters (RemoveBind "c2" s).
Proof.
  intros s. split; [reflexivity|].
  refine (proj1 (RemoveBind_spec "c2" s _)).
  cbn.
  repeat (apply NoDup_cons; split;
          [rewrite ?not_elem_of_cons; repeat split; try discriminate; apply not_elem_of_nil|]).
  apply NoDup_nil_2.
Defined.

(** Binding a server to a cluster it is not bound to and removing the
    bind gives the server back. *)
Theorem RemoveBind_AddBind (bind : Binding) (s : Server) :
  BindClusterName bind ∉ BindClusters s ->
  RemoveBind (BindClusterName bind) (AddBind bind s) = s.
Proof.
  intros Hn. rewrite (AddBind_unbound bind s Hn).
  rewrite (RemoveBind_first (BindClusterName bind)
             (set_BindClusters (BindClusters s ++ [BindClusterName bind]) s)
             (BindClusters s) [] eq_refl Hn).
  cbn. rewrite app_nil_r. destruct s; reflexivity.
Qed.

Lemma RemoveBind_AddBind_witness :
  RemoveBind "c9" (AddBind (Build_Binding "10.0.0.1:80" "c9") server_a) = server_a.
Proof.
  apply (RemoveBind_AddBind (Build_Binding "10.0.0.1:80" "c9") server_a).
  cbn. apply not_elem_of_nil.
Defined.

(** ** Checks that fail and checks that succeed *)

(** Failures touch the count of failures and the interval in use, and
    nothing else. *)
Lemma fails_fields (n : nat) (s : Server) :
  fails n s
  = set_useCheckDuration (useCheckDuration (fails n s))
      (set_checkFailCount (checkFailCount (fails n s)) s).
Proof.
  induction n as [|n IH].
  - destruct s; reflexivity.
  - rewrite fails_S, IH. reflexivity.
Qed.

Lemma check_succ_fails (n : nat) (s : Server) (probe : ProbeResult) :
  check_succ (fails n s) probe = check_succ s probe.
Proof. rewrite fails_fields. reflexivity. Qed.

(** However many checks failed before, a check that succeeds leaves the
    server as it would have left it at once: no failure counted, and the
    interval in use back at [CheckDuration]. *)
Theorem Server_check_recovers (s : Server) (n : nat) (probe : ProbeResult) (t : Z) :
  httpClient s = Some t -> check_succ s probe = true ->
  Server_check (fails n s) probe = Server_check s probe /\
  exists s', Server_check (fails n s) probe = Done (true, s') /\
             checkFailCount s' = 0 /\ useCheckDuration s' = CheckDuration s /\
             Status s' = Status s.
Proof.
  intros Ht Hok.
  assert (E : Server_check (fails n s) probe = Server_check s probe).
  { unfold Server_check. rewrite check_succ_fails, Hok.
    rewrite fails_fields. cbn. rewrite Ht. reflexivity. }
  split; [exact E|]. rewrite E. unfold Server_check. rewrite Ht, Hok.
  eexists. split; [reflexivity|]. repeat split.
Qed.

Lemma Server_check_recovers_witness :
  Server_check (fails 3 (registered server_a)) probe_ok
  = Server_check (registered server_a) probe_ok /\
  useCheckDuration (fails 3 (registered server_a)) = 15.
Proof.
  split; [|reflexivity].
  exact (proj1 (Server_check_recovers (registered server_a) 3 probe_ok
                  (wrap (Second * 3)) eq_refl eq_refl)).
Defined.

(** A check that fails counts one failure more; the count is exact as
    long as it fits an [int]. *)
Theorem checkFailCount_fails (s : Server) (n : nat) :
  0 <= checkFailCount s -> checkFailCount s + Z.of_nat n <= int_max ->
  checkFailCount (fails n s) = checkFailCount s + Z.of_nat n.
Proof.
  intros H0 Hmax. induction n as [|n IH]; [cbn; lia|].
  rewrite fails_S, checkFailCount_fail, IH by lia.
  rewrite wrap_small by (unfold in_int, int_min, int_max in *; lia). lia.
Qed.

Lemma checkFailCount_fails_witness :
  checkFailCount (fails 4 (registered server_a)) = 0 + Z.of_nat 4.
Proof.
  apply (checkFailCount_fails (registered server_a) 4); vm_compute; discriminate.
Defined.

(** ** Documents of any shape *)

Lemma decode_member_unexported (s : Server) (kv : string * JSON) :
  httpClient (decode_member s kv) = httpClient s /\
  checkFailCount (decode_member s kv) = checkFailCount s /\
  prevStatus (decode_member s kv) = prevStatus s /\
  useCheckDuration (decode_member s kv) = useCheckDuration s /\
  circuit (decode_member s kv) = circuit s /\
  lock (decode_member s kv) = lock s /\
  checkStopped (decode_member s kv) = checkStopped s.
Proof.
  destruct kv as [k v]. unfold decode_member.
  repeat (destruct (key_is k _); [repeat split|]). repeat split.
Qed.

Lemma Unmarshal_unexported (data : JSON) (s : Server) :
  httpClient (Unmarshal data s) = httpClient s /\
  checkFailCount (Unmarshal data s) = checkFailCount s /\
  prevStatus (Unmarshal data s) = prevStatus s /\
  useCheckDuration (Unmarshal data s) = useCheckDuration s /\
  circuit (Unmarshal data s) = circuit s /\
  lock (Unmarshal data s) = lock s /\
  checkStopped (Unmarshal data s) = checkStopped s.
Proof.
  destruct data as [| | | | |members]; cbn; try (repeat split; reflexivity).
  revert s. induction members as [|kv members IH]; intros s; cbn; [repeat split|].
  destruct (IH (decode_member s kv)) as (H1 & H2 & H3 & H4 & H5 & H6 & H7).
  destruct (decode_member_unexported s kv) as (G1 & G2 & G3 & G4 & G5 & G6 & G7).
  rewrite H1, H2, H3, H4, H5, H6, H7. repeat split; assumption.
Qed.

(** Whatever the document, the server [UnMarshalServer] makes of it has a
    check timeout that is not zero and carries no run-time state (no
    client, no failure counted, previous status [Down], circuit
    [CircuitOpen], checks not stopped); [UnMarshalServerFromReader] gives
    the same server with the status [Down]. *)
Theorem UnMarshalServer_any (data : JSON) :
  CheckTimeout (UnMarshalServer data) <> 0 /\
  getCheckTimeout (UnMarshalServer data) = CheckTimeout (UnMarshalServer data) /\
  httpClient (UnMarshalServer data) = None /\
  checkFailCount (UnMarshalServer data) = 0 /\
  prevStatus (UnMarshalServer data) = Down /\
  useCheckDuration (UnMarshalServer data) = 0 /\
  circuit (UnMarshalServer data) = CircuitOpen /\
  checkStopped (UnMarshalServer data) = false /\
  UnMarshalServerFromReader data = set_Status Down (UnMarshalServer data) /\
  Status (UnMarshalServerFromReader data) = Down.
Proof.
  destruct (Unmarshal_unexported data zeroServer) as (H1 & H2 & H3 & H4 & H5 & H6 & H7).
  unfold UnMarshalServer, UnMarshalServerFromReader, getCheckTimeout. cbv zeta.
  change (CheckTimeout (set_Status Down (Unmarshal data zeroServer)))
    with (CheckTimeout (Unmarshal data zeroServer)).
  destruct (Z.eqb_spec 0 (CheckTimeout (Unmarshal data zeroServer))) as [E|E].
  - cbn. rewrite H1, H2, H3, H4, H5, H7. repeat split. discriminate.
  - destruct (Z.eqb_spec (CheckTimeout (Unmarshal data zeroServer)) 0) as [E'|_];
      [congruence|].
    rewrite H1, H2, H3, H4, H5, H7. repeat split. congruence.
Qed.

(** What the encoder writes is valid UTF-8: an encoding it keeps is
    still an encoding once the bytes after it are coerced, and [U+FFFD]
    is one. *)
Lemma rune_size_coerce (c : ascii) (s : string) (k : nat) :
  rune_size (String c s) = S k -> rune_size (String c (coerce_from k s)) = S k.
Proof.
  unfold rune_size.
  destruct (utf8_first (byte c)) as [[[sz lo] hi]|]; [|discriminate].
  destruct sz as [|[|sz]]; [| intros [= <-]; reflexivity |].
  - destruct s as [|s1 [|s2 [|s3 rest]]]; try discriminate;
      repeat match goal with
             | |- context [if ?b then _ else _] => destruct b eqn:?
             end;
      try discriminate;
      intros [= <-]; cbn [coerce_from];
      repeat match goal with H : _ = true |- _ => rewrite H end; reflexivity.
  - destruct s as [|s1 [|s2 [|s3 rest]]]; try discriminate;
      repeat match goal with
             | |- context [if ?b then _ else _] => destruct b eqn:?
             end;
      try discriminate;
      intros [= <-]; cbn [coerce_from];
      repeat match goal with H : _ = true |- _ => rewrite H end; reflexivity.
Qed.

Lemma ValidString_from_coerce (s : string) (skip : nat) :
  ValidString_from skip (coerce_from skip s) = true.
Proof.
  revert skip. induction s as [|c s IH]; intros skip; [reflexivity|].
  cbn [coerce_from]. destruct skip as [|k]; [|apply IH].
  destruct (rune_size (String c s)) as [|k] eqn:E.
  - exact (IH 0%nat).
  - cbn [ValidString_from]. rewrite (rune_size_coerce c s k E). apply IH.
Qed.

Lemma coerce_utf8_idem (s : string) : coerce_utf8 (coerce_utf8 s) = coerce_utf8 s.
Proof. apply coerce_utf8_valid, ValidString_from_coerce. Qed.

Lemma Server_utf8_coerced (s : Server) : Server_utf8 (coerced s).
Proof.
  unfold Server_utf8, coerced, ValidString. cbn.
  repeat (split; [apply ValidString_from_coerce|]).
  apply Forall_fmap, Forall_true. intros name. apply ValidString_from_coerce.
Qed.

(** Serializing again what was deserialized from the serialization of a
    server, and deserializing it, gives the same server: the default of
    the check timeout and the coercion of the strings to valid UTF-8 are
    the only changes, and they are made once. *)
Theorem UnMarshalServer_Marshal_stable (s : Server) :
  Server_ints s ->
  UnMarshalServer (Marshal (UnMarshalServer (Marshal s))) = UnMarshalServer (Marshal s).
Proof.
  intros Hs.
  rewrite (UnMarshalServer_Marshal_coerced s Hs).
  set (ct := if CheckTimeout s =? 0 then DefaultCheckTimeoutInSeconds else CheckTimeout s).
  assert (Hct : ct <> 0 /\ in_int ct).
  { unfold ct. destruct Hs as (_ & Hto & _).
    destruct (Z.eqb_spec (CheckTimeout s) 0); split; try assumption; try discriminate.
    unfold in_int, int_min, int_max, DefaultCheckTimeoutInSeconds. lia. }
  destruct Hct as [Hne Hin].
  set (s1 := set_CheckTimeout ct (exported (coerced s))).
  assert (Hs1 : Server_ints s1).
  { destruct Hs as (H1 & H2 & H3 & H4 & H5 & H6 & H7 & H8 & H9 & H10).
    exact (conj H1 (conj Hin (conj H3 (conj H4 (conj H5 (conj H6 (conj H7
             (conj H8 (conj H9 H10))))))))). }
  assert (Hu1 : Server_utf8 s1) by exact (Server_utf8_coerced s).
  rewrite (UnMarshalServer_Marshal_coerced s1 Hs1), (coerced_valid s1 Hu1).
  change (CheckTimeout s1) with ct.
  destruct (Z.eqb_spec ct 0); [congruence | reflexivity].
Qed.

Lemma UnMarshalServer_Marshal_stable_witness :
  UnMarshalServer (Marshal (UnMarshalServer (Marshal server_ff)))
  = UnMarshalServer (Marshal server_ff).
Proof.
  apply (UnMarshalServer_Marshal_stable server_ff).
  unfold Server_ints, in_int. repeat split; vm_compute; discriminate.
Defined.

(** ** What the operations keep true of the table *)

Lemma well_formed_NewRouteTable : well_formed NewRouteTable.
Proof.
  split; cbn.
  - intros a p H. rewrite lookup_empty in H. discriminate.
  - intros a. rewrite !lookup_empty. split; intros [x Hx]; discriminate.
  - intros n p H. rewrite lookup_empty in H. discriminate.
  - intros a b n p H. rewrite lookup_empty in H. discriminate.
  - intros a. rewrite lookup_empty. split.
    + intros [x Hx]. discriminate.
    + intros (p & s & H & _). rewrite lookup_empty in H. discriminate.
  - intros p H. inversion H.
Qed.


Lemma same_names_refl (h : gmap loc Cluster) : same_names h h.
Proof. intros q c H. exists c. split; [exact H | reflexivity]. Qed.

Lemma same_names_trans (h1 h2 h3 : gmap loc Cluster) :
  same_names h1 h2 -> same_names h2 h3 -> same_names h1 h3.
Proof.
  intros H12 H23 q c H. destruct (H12 q c H) as (c2 & H2 & E2).
  destruct (H23 q c2 H2) as (c3 & H3 & E3). exists c3. split; [exact H3 | congruence].
Qed.

Lemma same_names_alter (f : Cluster -> Cluster) (p : loc) (h : gmap loc Cluster) :
  (forall c, Name (f c) = Name c) -> same_names h (alter f p h).
Proof.
  intros Hf q c H. destruct (decide (p = q)) as [->|Hne].
  - exists (f c). rewrite lookup_alter_eq, H. split; [reflexivity | apply Hf].
  - exists c. rewrite lookup_alter_ne by assumption. split; [exact H | reflexivity].
Qed.

Lemma same_names_foldl (f : Cluster -> Cluster) (ls : list loc) (h : gmap loc Cluster) :
  (forall c, Name (f c) = Name c) ->
  same_names h (foldl (fun h p => alter f p h) h ls).
Proof.
  intros Hf. revert h. induction ls as [|p ls IH]; intros h; cbn.
  - apply same_names_refl.
  - eapply same_names_trans; [apply (same_names_alter f p h Hf) | apply IH].
Qed.

Lemma same_names_insert (p : loc) (c : Cluster) (h : gmap loc Cluster) :
  h !! p = None -> same_names h (<[p := c]> h).
Proof.
  intros Hp q c0 H. exists c0. split; [|reflexivity].
  rewrite lookup_insert_ne; [exact H | congruence].
Qed.

Lemma Name_Cluster_bind (addr : string) (c : Cluster) : Name (Cluster_bind addr c) = Name c.
Proof. reflexivity. Qed.

Lemma Name_Cluster_unbind (addr : string) (c : Cluster) :
  Name (Cluster_unbind addr c) = Name c.
Proof. reflexivity. Qed.

(** A step that changes cluster objects only, keeping their names. *)
Lemma well_formed_clusters (r : RouteTable) (h : gmap loc Cluster) :
  well_formed r -> same_names (cluster_store r) h ->
  well_formed (set_cluster_store h r).
Proof.
  intros [W1 W2 W3 W4 W5 W6] Hh. split; cbn; try assumption.
  - intros n p Hn. destruct (W3 n p Hn) as (c & Hc & E).
    destruct (Hh p c Hc) as (c' & Hc' & E'). exists c'. split; [exact Hc' | congruence].
  - intros a b n p Ha Hb. destruct (W4 a b n p Ha Hb) as (c & Hc & E).
    destruct (Hh p c Hc) as (c' & Hc' & E'). exists c'. split; [exact Hc' | congruence].
Qed.

Lemma well_formed_range_binded (f : Cluster -> Cluster) (binded : gmap string loc)
    (r : RouteTable) :
  (forall c, Name (f c) = Name c) -> well_formed r -> well_formed (range_binded f binded r).
Proof.
  intros Hf W. rewrite range_binded_store.
  apply well_formed_clusters; [exact W | apply same_names_foldl, Hf].
Qed.

Lemma well_formed_update_cluster (f : Cluster -> Cluster) (p : loc) (r : RouteTable) :
  (forall c, Name (f c) = Name c) -> well_formed r -> well_formed (update_cluster f r p).
Proof.
  intros Hf W. unfold update_cluster.
  apply well_formed_clusters; [exact W | apply same_names_alter, Hf].
Qed.

(** A registered pointer is registered under one address. *)
Lemma registered_pointer (r : RouteTable) (a a' : string) (p : loc) :
  well_formed r -> svrs r !! a = Some p -> svrs r !! a' = Some p -> a = a'.
Proof.
  intros W H H'. destruct (wf_svrs r W a p H) as (s & Hs & E & _).
  destruct (wf_svrs r W a' p H') as (s' & Hs' & E' & _). congruence.
Qed.

(** Writing a server object that keeps what the table relies on. *)
Lemma well_formed_store_svr (r : RouteTable) (p : loc) (s s' : Server) :
  well_formed r -> svr_store r !! p = Some s ->
  Addr s' = Addr s -> httpClient s' = httpClient s ->
  checkStopped s' = checkStopped s -> External s' = External s ->
  well_formed (store_svr p s' r).
Proof.
  intros [W1 W2 W3 W4 W5 W6] Hp Ha Hh Hc He. split; cbn; try assumption.
  - intros a q Hq. destruct (W1 a q Hq) as (sq & Hsq & E & Hcl & Hst).
    destruct (decide (p = q)) as [->|Hne].
    + exists s'. rewrite lookup_insert_eq. rewrite Hp in Hsq. injection Hsq as <-.
      repeat split; congruence.
    + exists sq. rewrite lookup_insert_ne by assumption. repeat split; assumption.
  - intros a. rewrite W5. split.
    + intros (q & sq & Hq & Hsq & Hex). destruct (decide (p = q)) as [->|Hne].
      * exists q, s'. rewrite lookup_insert_eq. rewrite Hp in Hsq. injection Hsq as <-.
        repeat split; congruence.
      * exists q, sq. rewrite lookup_insert_ne by assumption. repeat split; assumption.
    + intros (q & sq & Hq & Hsq & Hex). destruct (decide (p = q)) as [->|Hne].
      * exists q, s. rewrite lookup_insert_eq in Hsq. injection Hsq as <-.
        repeat split; congruence.
      * exists q, sq. rewrite lookup_insert_ne in Hsq by assumption.
        repeat split; assumption.
  - intros q Hq. destruct (decide (p = q)) as [->|Hne].
    + rewrite lookup_insert_eq. eauto.
    + rewrite lookup_insert_ne by assumption. apply W6, Hq.
Qed.

Lemma well_formed_new_server (r : RouteTable) (p : loc) (s : Server) :
  well_formed r -> svr_store r !! p = None -> well_formed (store_svr p s r).
Proof.
  intros [W1 W2 W3 W4 W5 W6] Hp. split; cbn; try assumption.
  - intros a q Hq. destruct (W1 a q Hq) as (sq & Hsq & E).
    exists sq. rewrite lookup_insert_ne by congruence. split; assumption.
  - intros a. rewrite W5. split.
    + intros (q & sq & Hq & Hsq & Hex). exists q, sq.
      rewrite lookup_insert_ne by congruence. repeat split; assumption.
    + intros (q & sq & Hq & Hsq & Hex). exists q, sq.
      destruct (W1 a q Hq) as (s0 & Hs0 & _).
      rewrite lookup_insert_ne in Hsq by congruence. repeat split; assumption.
  - intros q Hq. destruct (decide (p = q)) as [->|Hne].
    + rewrite lookup_insert_eq. eauto.
    + rewrite lookup_insert_ne by assumption. apply W6, Hq.
Qed.

(** The table after a registration. *)
Lemma well_formed_register (r : RouteTable) (p : loc) (s0 s' : Server) (d : Z)
    (an : gmap string (list Z)) :
  well_formed r -> svr_store r !! p = Some s0 -> svrs r !! Addr s0 = None ->
  Addr s' = Addr s0 -> is_Some (httpClient s') -> checkStopped s' = false ->
  well_formed
    (Build_RouteTable (<[p := s']> (svr_store r)) (cluster_store r) (clusters r)
       (<[Addr s0 := p]> (svrs r)) (<[Addr s0 := ∅]> (mapping r)) (apis r) (routings r)
       (if External s' then tw r else <[Addr s0 := d]> (tw r)) (evtChan r) an).
Proof.
  intros W Hp Hs Ha Hcl Hst.
  assert (Hfresh : forall a q, svrs r !! a = Some q -> q <> p /\ a <> Addr s0).
  { intros a q Hq. destruct (wf_svrs r W a q Hq) as (sq & Hsq & E & _).
    split; intros ->; [|congruence].
    rewrite Hp in Hsq. injection Hsq as <-. congruence. }
  destruct W as [W1 W2 W3 W4 W5 W6]. split; cbn.
  - intros a q Hq. destruct (decide (Addr s0 = a)) as [<-|Hne].
    + rewrite lookup_insert_eq in Hq. injection Hq as <-.
      exists s'. rewrite lookup_insert_eq. repeat split; assumption.
    + rewrite lookup_insert_ne in Hq by assumption.
      destruct (Hfresh a q Hq) as [Hqp _].
      rewrite lookup_insert_ne by congruence. apply W1, Hq.
  - intros a. destruct (decide (Addr s0 = a)) as [<-|Hne].
    + rewrite !lookup_insert_eq. split; eauto.
    + rewrite !lookup_insert_ne by assumption. apply W2.
  - exact W3.
  - intros a b n q Ha' Hb. destruct (decide (Addr s0 = a)) as [<-|Hne].
    + rewrite lookup_insert_eq in Ha'. injection Ha' as <-.
      rewrite lookup_empty in Hb. discriminate.
    + rewrite lookup_insert_ne in Ha' by assumption. exact (W4 a b n q Ha' Hb).
  - intros a. destruct (decide (Addr s0 = a)) as [<-|Hne].
    + rewrite lookup_insert_eq. split.
      * intros Htw. exists p, s'. rewrite lookup_insert_eq.
        split; [reflexivity|]. split; [reflexivity|].
        destruct (External s'); [|reflexivity].
        apply W5 in Htw. destruct Htw as (q & sq & Hq & _). congruence.
      * intros (q & sq & Hq & Hsq & Hex). injection Hq as <-.
        rewrite lookup_insert_eq in Hsq. injection Hsq as <-.
        rewrite Hex. rewrite lookup_insert_eq. eauto.
    + rewrite lookup_insert_ne by assumption.
      assert (Htw : (if External s' then tw r else <[Addr s0 := d]> (tw r)) !! a = tw r !! a)
        by (destruct (External s'); [reflexivity | apply lookup_insert_ne, Hne]).
      rewrite Htw, W5. split.
      * intros (q & sq & Hq & Hsq & Hex). exists q, sq.
        destruct (Hfresh a q Hq) as [Hqp _].
        rewrite lookup_insert_ne by congruence. repeat split; assumption.
      * intros (q & sq & Hq & Hsq & Hex). exists q, sq.
        destruct (Hfresh a q Hq) as [Hqp _].
        rewrite lookup_insert_ne in Hsq by congruence. repeat split; assumption.
  - intros q Hq. destruct (decide (p = q)) as [->|Hne].
    + rewrite lookup_insert_eq. eauto.
    + rewrite lookup_insert_ne by assumption. apply W6, Hq.
Qed.

(** Being well formed does not look at the APIs, the routings or the
    analyzer. *)
Lemma well_formed_ext (r r' : RouteTable) :
  svr_store r' = svr_store r -> cluster_store r' = cluster_store r ->
  clusters r' = clusters r -> svrs r' = svrs r -> mapping r' = mapping r ->
  tw r' = tw r -> evtChan r' = evtChan r ->
  well_formed r -> well_formed r'.
Proof.
  intros E1 E2 E3 E4 E5 E6 E7 [W1 W2 W3 W4 W5 W6].
  split; rewrite ?E1, ?E2, ?E3, ?E4, ?E5, ?E6, ?E7; assumption.
Qed.

Lemma well_formed_AddNewServer (p : loc) (probe : ProbeResult) (r r' : RouteTable)
    (e : option error) :
  well_formed r -> AddNewServer p probe r = Done (e, r') -> well_formed r'.
Proof.
  intros W. unfold AddNewServer, deref_svr.
  destruct (svr_store r !! p) as [svr|] eqn:Hp; [|discriminate]. cbn.
  destruct (svrs r !! Addr svr) eqn:Hs.
  - intros Hr. injection Hr as _ Hr. subst r'. exact W.
  - fold (registered svr). destruct (External svr) eqn:Hext; cbn.
    + intros Hr. injection Hr as _ Hr. subst r'.
      pose proof (well_formed_register r p svr (changeTo Up (registered svr)) 0
                    (analysiser r) W Hp Hs eq_refl ltac:(cbn; eauto) eq_refl) as W'.
      cbn in W'. rewrite Hext in W'.
      refine (well_formed_ext _ _ _ _ _ _ _ _ _ W'); cbn;
        rewrite ?insert_insert_eq; reflexivity.
    + rewrite (addToCheck_spec p probe _ (registered svr)
                 (wrap (Second * getCheckTimeout svr)));
        [| apply lookup_insert_eq | reflexivity].
      cbn. intros Hr. injection Hr as _ Hr. subst r'.
      destruct (probed_status (registered svr) probe) as (_ & _ & _ & Had).
      assert (Hfields : is_Some (httpClient (probed (registered svr) probe)) /\
                        checkStopped (probed (registered svr) probe) = false /\
                        External (probed (registered svr) probe) = false).
      { unfold probed. destruct (check_succ _ _); cbn; rewrite Hext; eauto. }
      destruct Hfields as (Hcl & Hst & Hex).
      pose proof (well_formed_register r p svr (probed (registered svr) probe)
                    (wrap (useCheckDuration (probed (registered svr) probe) * Second))
                    (analysiser r) W Hp Hs Had Hcl Hst) as W'.
      rewrite Hex in W'.
      refine (well_formed_ext _ _ _ _ _ _ _ _ _ W'); cbn;
        rewrite ?insert_insert_eq; reflexivity.
Qed.

Lemma well_formed_UpdateServer (p : loc) (r r' : RouteTable) (e : option error) :
  well_formed r -> UpdateServer p r = Done (e, r') -> well_formed r'.
Proof.
  intros W. unfold UpdateServer, deref_svr.
  destruct (svr_store r !! p) as [svr|] eqn:Hp; [|discriminate]. cbn.
  destruct (svrs r !! Addr svr) as [pold|] eqn:Hs.
  - cbn. destruct (svr_store r !! pold) as [old|] eqn:Hold; [|discriminate]. cbn.
    intros Hr. injection Hr as _ Hr. subst r'.
    pose proof (well_formed_store_svr r pold old (updateFrom svr old) W Hold
                  eq_refl eq_refl eq_refl eq_refl) as W'.
    refine (well_formed_ext _ _ _ _ _ _ _ _ _ W'); reflexivity.
  - intros Hr. injection Hr as _ Hr. subst r'. exact W.
Qed.

Lemma well_formed_AddNewCluster (p : loc) (r r' : RouteTable) (e : option error) :
  well_formed r -> AddNewCluster p r = Done (e, r') -> well_formed r'.
Proof.
  intros W. unfold AddNewCluster, deref_cluster.
  destruct (cluster_store r !! p) as [c|] eqn:Hp; [|discriminate]. cbn.
  destruct (clusters r !! Name c) eqn:Hc.
  - intros Hr. injection Hr as _ Hr. subst r'. exact W.
  - intros Hr. injection Hr as _ Hr. subst r'.
    destruct W as [W1 W2 W3 W4 W5 W6]. split; cbn; try assumption.
    intros n q Hq. destruct (decide (Name c = n)) as [<-|Hne].
    + rewrite lookup_insert_eq in Hq. injection Hq as <-. eauto.
    + rewrite lookup_insert_ne in Hq by assumption. apply W3, Hq.
Qed.

(** The table after a server is deleted. *)
Lemma well_formed_DeleteServer (addr : string) (r r' : RouteTable) (e : option error) :
  well_formed r -> DeleteServer addr r = Done (e, r') -> well_formed r'.
Proof.
  intros W. destruct (svrs r !! addr) as [p|] eqn:Ha.
  - destruct (wf_svrs r W addr p Ha) as (s & Hp & Hs & _).
    rewrite (DeleteServer_spec addr r p s Ha Hp). intros Hr. injection Hr as _ Hr. subst r'.
    apply well_formed_range_binded; [apply Name_Cluster_unbind|].
    rewrite Hs.
    assert (Hfresh : forall a q, svrs r !! a = Some q -> a <> addr -> q <> p).
    { intros a q Hq Hne ->. apply Hne. exact (registered_pointer r a addr p W Hq Ha). }
    destruct W as [W1 W2 W3 W4 W5 W6]. split; cbn; rewrite ?Hs.
    + intros a q Hq. destruct (decide (addr = a)) as [<-|Hne].
      * rewrite lookup_delete_eq in Hq. discriminate.
      * rewrite lookup_delete_ne in Hq by assumption.
        rewrite lookup_insert_ne by (apply not_eq_sym, (Hfresh a q Hq); congruence).
        apply W1, Hq.
    + intros a. destruct (decide (addr = a)) as [<-|Hne].
      * rewrite !lookup_delete_eq. split; intros [x Hx]; discriminate.
      * rewrite !lookup_delete_ne by assumption. apply W2.
    + exact W3.
    + intros a b n q Ha' Hb. destruct (decide (addr = a)) as [<-|Hne].
      * rewrite lookup_delete_eq in Ha'. discriminate.
      * rewrite lookup_delete_ne in Ha' by assumption. exact (W4 a b n q Ha' Hb).
    + intros a. destruct (decide (addr = a)) as [<-|Hne].
      * rewrite lookup_delete_eq. split; [intros [x Hx]; discriminate|].
        intros (q & sq & Hq & _). rewrite lookup_delete_eq in Hq. discriminate.
      * rewrite lookup_delete_ne by assumption. rewrite W5. split.
        -- intros (q & sq & Hq & Hsq & Hex). exists q, sq.
           rewrite lookup_delete_ne by assumption.
           rewrite lookup_insert_ne by (apply not_eq_sym, (Hfresh a q Hq); congruence).
           repeat split; assumption.
        -- intros (q & sq & Hq & Hsq & Hex). exists q, sq.
           rewrite lookup_delete_ne in Hq by assumption.
           rewrite lookup_insert_ne in Hsq
             by (apply not_eq_sym, (Hfresh a q Hq); congruence).
           repeat split; assumption.
    + intros q Hq. destruct (decide (p = q)) as [->|Hne].
      * rewrite lookup_insert_eq. eauto.
      * rewrite lookup_insert_ne by assumption. apply W6, Hq.
  - unfold DeleteServer. rewrite Ha. intros Hr. injection Hr as _ Hr. subst r'. exact W.
Qed.

(** Changing the clusters a server is bound to. *)
Lemma well_formed_set_binded (r : RouteTable) (a : string) (b b' : gmap string loc) :
  well_formed r -> mapping r !! a = Some b ->
  (forall n q, b' !! n = Some q ->
     exists c, cluster_store r !! q = Some c /\ Name c = n) ->
  well_formed (set_mapping (<[a := b']> (mapping r)) r).
Proof.
  intros [W1 W2 W3 W4 W5 W6] Hb Hb'. split; cbn; try assumption.
  - intros a'. destruct (decide (a = a')) as [<-|Hne].
    + rewrite lookup_insert_eq, <- W2, Hb. split; eauto.
    + rewrite lookup_insert_ne by assumption. apply W2.
  - intros a' b0 n q Ha' Hn. destruct (decide (a = a')) as [<-|Hne].
    + rewrite lookup_insert_eq in Ha'. injection Ha' as <-. exact (Hb' n q Hn).
    + rewrite lookup_insert_ne in Ha' by assumption. exact (W4 a' b0 n q Ha' Hn).
Qed.

Lemma well_formed_Bind (addr name : string) (r r' : RouteTable) (e : option error) :
  well_formed r -> Bind addr name r = Done (e, r') -> well_formed r'.
Proof.
  intros W. unfold Bind, deref_svr, deref_cluster.
  destruct (svrs r !! addr) as [ps|] eqn:Ha;
    [|intros Hr; injection Hr as _ Hr; subst r'; exact W].
  destruct (clusters r !! name) as [pc|] eqn:Hn;
    [|intros Hr; injection Hr as _ Hr; subst r'; exact W].
  destruct (wf_svrs r W addr ps Ha) as (svr & Hps & Hs & _).
  destruct (wf_clusters r W name pc Hn) as (cluster & Hpc & Hc).
  rewrite Hps, Hpc. cbn.
  destruct (match default ∅ (mapping r !! Addr svr) !! Name cluster with
            | Some pb => _ | None => _ end) as [bound|]; [|discriminate]. cbn.
  destruct bound; [intros Hr; injection Hr as _ Hr; subst r'; exact W|].
  destruct (mapping r !! Addr svr) as [b|] eqn:Hb; [|discriminate].
  intros Hr. injection Hr as _ Hr. subst r'.
  assert (W1 : well_formed
                 (set_mapping (<[Addr svr := <[Name cluster := pc]> b]> (mapping r)) r)).
  { apply (well_formed_set_binded r (Addr svr) b _ W Hb).
    intros n q Hq. destruct (decide (Name cluster = n)) as [<-|Hne].
    - rewrite lookup_insert_eq in Hq. injection Hq as <-. eauto.
    - rewrite lookup_insert_ne in Hq by assumption. exact (wf_binded r W _ b n q Hb Hq). }
  destruct (Status svr =? Up); [|exact W1].
  apply well_formed_update_cluster; [apply Name_Cluster_bind | exact W1].
Qed.

Lemma well_formed_UnBind (addr name : string) (r r' : RouteTable) (e : option error) :
  well_formed r -> UnBind addr name r = Done (e, r') -> well_formed r'.
Proof.
  intros W. unfold UnBind, deref_svr, deref_cluster.
  destruct (svrs r !! addr) as [ps|] eqn:Ha;
    [|intros Hr; injection Hr as _ Hr; subst r'; exact W].
  destruct (clusters r !! name) as [pc|] eqn:Hn;
    [|intros Hr; injection Hr as _ Hr; subst r'; exact W].
  destruct (svr_store r !! ps) as [svr|]; [|discriminate]. cbn.
  destruct (cluster_store r !! pc) as [cluster|]; [|discriminate]. cbn.
  intros Hr. injection Hr as _ Hr. subst r'. unfold doUnBind.
  destruct (mapping r !! Addr svr) as [b|] eqn:Hb; [|exact W].
  apply well_formed_update_cluster; [apply Name_Cluster_unbind|].
  apply (well_formed_set_binded r (Addr svr) b _ W Hb).
  intros n q Hq. destruct (decide (Name cluster = n)) as [<-|Hne].
  - rewrite lookup_delete_eq in Hq. discriminate.
  - rewrite lookup_delete_ne in Hq by assumption. exact (wf_binded r W _ b n q Hb Hq).
Qed.

Lemma well_formed_check (addr : string) (probe : ProbeResult) (r r' : RouteTable) :
  well_formed r -> is_Some (tw r !! addr) -> check addr probe r = Done r' ->
  well_formed r'.
Proof.
  intros W Htw. destruct (proj1 (wf_tw r W addr) Htw) as (p & s & Ha & Hp & Hex).
  destruct (wf_svrs r W addr p Ha) as (s0 & Hp0 & Hs & [t Ht] & Hst).
  rewrite Hp in Hp0. injection Hp0 as <-.
  rewrite (check_spec addr probe r p s t Ha Hp Ht), Hst.
  intros Hr. injection Hr as Hr. subst r'.
  assert (Hfields : Addr (probed s probe) = Addr s /\
                    httpClient (probed s probe) = httpClient s /\
                    checkStopped (probed s probe) = checkStopped s /\
                    External (probed s probe) = External s).
  { unfold probed. destruct (check_succ s probe); repeat split. }
  destruct Hfields as (F1 & F2 & F3 & F4).
  pose proof (well_formed_store_svr r p s (probed s probe) W Hp F1 F2 F3 F4)
    as [W1 W2 W3 W4 W5 W6].
  split; cbn; try assumption.
  - intros a. destruct (decide (Addr s = a)) as [<-|Hne].
    + rewrite lookup_insert_eq. split; [|eauto]. intros _.
      exists p, (probed s probe). rewrite Hs, lookup_insert_eq.
      repeat split; congruence.
    + rewrite lookup_insert_ne by assumption. apply W5.
  - intros q Hq. apply elem_of_app in Hq. destruct Hq as [Hq|Hq].
    + apply W6, Hq.
    + apply list_elem_of_singleton in Hq. subst q. cbn. rewrite lookup_insert_eq. eauto.
Qed.

Lemma well_formed_changed (r r' : RouteTable) :
  well_formed r -> changed r = Some (Done r') -> well_formed r'.
Proof.
  intros W. unfold changed, deref_svr.
  destruct (evtChan r) as [|p rest] eqn:He; [discriminate|]. cbn.
  destruct (svr_store r !! p) as [svr|]; [|discriminate]. cbn.
  assert (W0 : well_formed (set_evtChan rest r)).
  { destruct W as [W1 W2 W3 W4 W5 W6]. split; cbn; try assumption.
    intros q Hq. apply W6. rewrite He. apply list_elem_of_further, Hq. }
  destruct (statusChanged svr).
  - destruct (Status svr =? Up); intros Hr; injection Hr as Hr; subst r';
      apply well_formed_range_binded;
      [apply Name_Cluster_bind | exact W0 | apply Name_Cluster_unbind | exact W0].
  - intros Hr. injection Hr as Hr. subst r'. exact W0.
Qed.

(** Every step keeps the table well formed. *)
Lemma step_well_formed (r r' : RouteTable) :
  well_formed r -> step r r' -> well_formed r'.
Proof.
  intros W Hstep. destruct Hstep.
  - apply well_formed_new_server; assumption.
  - apply well_formed_clusters; [exact W | apply same_names_insert; assumption].
  - eapply well_formed_AddNewServer; eassumption.
  - eapply well_formed_UpdateServer; eassumption.
  - eapply well_formed_DeleteServer; eassumption.
  - eapply well_formed_AddNewCluster; eassumption.
  - eapply well_formed_Bind; eassumption.
  - eapply well_formed_UnBind; eassumption.
  - eapply well_formed_check; eassumption.
  - eapply well_formed_changed; eassumption.
  - refine (well_formed_ext _ _ _ _ _ _ _ _ _ W); reflexivity.
  - refine (well_formed_ext _ _ _ _ _ _ _ _ _ W); reflexivity.
Qed.

Lemma well_formed_rtc (r r' : RouteTable) :
  well_formed r -> rtc step r r' -> well_formed r'.
Proof.
  intros W Hr. revert r' Hr.
  apply (rtc_ind_r (R := step) well_formed r); [exact W|].
  intros r1 r2 _ Hstep W1. exact (step_well_formed r1 r2 W1 Hstep).
Qed.

Lemma reachable_table_b : reachable table_b.
Proof.
  unfold reachable.
  eapply rtc_l; [apply (step_new_server 1%positive server_a NewRouteTable); reflexivity|].
  eapply rtc_l; [apply (step_new_cluster 1%positive cluster_c1); reflexivity|].
  eapply rtc_l; [eapply (step_AddNewServer 1%positive probe_ok); vm_compute; reflexivity|].
  eapply rtc_l; [eapply (step_AddNewCluster 1%positive); vm_compute; reflexivity|].
  eapply rtc_l; [eapply (step_Bind "10.0.0.1:80" "c1"); vm_compute; reflexivity|].
  apply rtc_refl.
Qed.

(** Every table that the operations build from [NewRouteTable] is well
    formed: its server map, its mapping and the server objects agree on
    the addresses; its cluster map, the mappings and the cluster objects
    agree on the names; a timer runs for each server that is not
    external and for no other address; the channel holds servers. *)
Theorem reachable_well_formed (r : RouteTable) : reachable r -> well_formed r.
Proof.
  intros Hr. exact (well_formed_rtc NewRouteTable r well_formed_NewRouteTable Hr).
Qed.

Lemma reachable_well_formed_witness : well_formed table_b.
Proof. exact (reachable_well_formed table_b reachable_table_b). Defined.


(** ** No nil pointer on the tables the operations build *)

(** On a table built by the operations, no operation of the table
    panics when it is given an address or a pointer to an existing
    object: deleting a server, binding and unbinding, the check the time
    wheel runs for a timer it holds, the turn of the worker, adding or
    updating a server, adding a cluster. *)
Theorem reachable_no_panic (r : RouteTable) :
  reachable r ->
  (forall addr, DeleteServer addr r <> Panic) /\
  (forall addr name, Bind addr name r <> Panic) /\
  (forall addr name, UnBind addr name r <> Panic) /\
  (forall addr probe, is_Some (tw r !! addr) -> check addr probe r <> Panic) /\
  changed r <> Some Panic /\
  (forall p probe, is_Some (svr_store r !! p) -> AddNewServer p probe r <> Panic) /\
  (forall p, is_Some (svr_store r !! p) -> UpdateServer p r <> Panic) /\
  (forall p, is_Some (cluster_store r !! p) -> AddNewCluster p r <> Panic).
Proof.
  intros Hr.
  pose proof (well_formed_rtc NewRouteTable r well_formed_NewRouteTable Hr) as W.
  split; [|split; [|split; [|split; [|split; [|split; [|split]]]]]].
  - intros addr. destruct (svrs r !! addr) as [p|] eqn:Ha.
    + destruct (wf_svrs r W addr p Ha) as (s & Hp & _).
      rewrite (DeleteServer_spec addr r p s Ha Hp). discriminate.
    + unfold DeleteServer. rewrite Ha. discriminate.
  - intros addr name. unfold Bind, deref_svr, deref_cluster.
    destruct (svrs r !! addr) as [ps|] eqn:Ha; [|discriminate].
    destruct (clusters r !! name) as [pc|] eqn:Hn; [|discriminate].
    destruct (wf_svrs r W addr ps Ha) as (svr & Hps & Hs & _).
    destruct (wf_clusters r W name pc Hn) as (cluster & Hpc & Hc).
    rewrite Hps, Hpc. cbn.
    destruct (proj2 (wf_mapping r W addr) ltac:(eauto)) as [b Hb].
    rewrite Hs, Hb. cbn.
    destruct (b !! Name cluster) as [pb|] eqn:Hpb.
    + destruct (wf_binded r W addr b _ pb Hb Hpb) as (cb & Hcb & _).
      rewrite Hcb. cbn. destruct (String.eqb (Name cb) name); discriminate.
    + cbn. discriminate.
  - intros addr name. unfold UnBind, deref_svr, deref_cluster.
    destruct (svrs r !! addr) as [ps|] eqn:Ha; [|discriminate].
    destruct (clusters r !! name) as [pc|] eqn:Hn; [|discriminate].
    destruct (wf_svrs r W addr ps Ha) as (svr & Hps & _).
    destruct (wf_clusters r W name pc Hn) as (cluster & Hpc & _).
    rewrite Hps, Hpc. discriminate.
  - intros addr probe Htw.
    destruct (proj1 (wf_tw r W addr) Htw) as (p & s & Ha & Hp & _).
    destruct (wf_svrs r W addr p Ha) as (s0 & Hp0 & _ & [t Ht] & _).
    rewrite Hp in Hp0. injection Hp0 as <-.
    rewrite (check_spec addr probe r p s t Ha Hp Ht). discriminate.
  - unfold changed, deref_svr. destruct (evtChan r) as [|p rest] eqn:He; [discriminate|].
    destruct (wf_evtChan r W p) as [s Hs]; [rewrite He; apply list_elem_of_here|].
    cbn. rewrite Hs. cbn.
    destruct (statusChanged s); [destruct (Status s =? Up)|]; discriminate.
  - intros p probe [svr Hp]. unfold AddNewServer, deref_svr. rewrite Hp. cbn.
    destruct (svrs r !! Addr svr); [discriminate|].
    fold (registered svr). destruct (External svr); cbn; [discriminate|].
    rewrite (addToCheck_spec p probe _ (registered svr)
               (wrap (Second * getCheckTimeout svr)));
      [| apply lookup_insert_eq | reflexivity].
    discriminate.
  - intros p [svr Hp]. unfold UpdateServer, deref_svr. rewrite Hp. cbn.
    destruct (svrs r !! Addr svr) as [pold|] eqn:Hs; [|discriminate].
    destruct (wf_svrs r W _ pold Hs) as (old & Hold & _). cbn. rewrite Hold. discriminate.
  - intros p [c Hp]. unfold AddNewCluster, deref_cluster. rewrite Hp. cbn.
    destruct (clusters r !! Name c); discriminate.
Qed.

Lemma reachable_no_panic_witness :
  Bind "10.0.0.1:80" "c1" table_b <> Panic /\
  check "10.0.0.1:80" probe_500 table_b <> Panic.
Proof.
  destruct (reachable_no_panic table_b reachable_table_b)
    as (_ & Hbind & _ & Hcheck & _).
  split; [apply Hbind | apply Hcheck]. cbn. eauto.
Defined.

(** ** Updating a server *)

(** [UpdateServer] copies the seven tunables of the server it is given
    into the registered server of the same address, and nothing else:
    address, scheme, check settings, status, circuit and the state of the
    checks of the registered server stay, and so do the maps, the timers
    and the channel.  For an address that is not registered it answers
    [ErrServerNotFound] and leaves the table as it is. *)
Theorem UpdateServer_spec (p : loc) (r : RouteTable) (svr : Server) :
  svr_store r !! p = Some svr ->
  (svrs r !! Addr svr = None -> UpdateServer p r = Done (Some ErrServerNotFound, r)) /\
  (forall pold old,
     svrs r !! Addr svr = Some pold -> svr_store r !! pold = Some old ->
     exists r' old',
       UpdateServer p r = Done (None, r') /\
       svr_store r' !! pold = Some old' /\
       old' = updateFrom svr old /\
       (MaxQPS old' = MaxQPS svr /\
        HalfToOpenSeconds old' = HalfToOpenSeconds svr /\
        HalfTrafficRate old' = HalfTrafficRate svr /\
        HalfToOpenSucceedRate old' = HalfToOpenSucceedRate svr /\
        HalfToOpenCollectSeconds old' = HalfToOpenCollectSeconds svr /\
        OpenToCloseFailureRate old' = OpenToCloseFailureRate svr /\
        OpenToCloseCollectSeconds old' = OpenToCloseCollectSeconds svr) /\
       (Addr old' = Addr old /\ Schema old' = Schema old /\ External old' = External old /\
        CheckPath old' = CheckPath old /\
        CheckResponsedBody old' = CheckResponsedBody old /\
        CheckDuration old' = CheckDuration old /\ CheckTimeout old' = CheckTimeout old /\
        Status old' = Status old /\ prevStatus old' = prevStatus old /\
        circuit old' = circuit old /\ BindClusters old' = BindClusters old /\
        useCheckDuration old' = useCheckDuration old /\
        checkFailCount old' = checkFailCount old /\
        checkStopped old' = checkStopped old /\ httpClient old' = httpClient old) /\
       (forall q, q <> pold -> svr_store r' !! q = svr_store r !! q) /\
       svrs r' = svrs r /\ mapping r' = mapping r /\ tw r' = tw r /\
       clusters r' = clusters r /\ cluster_store r' = cluster_store r /\
       evtChan r' = evtChan r /\ apis r' = apis r /\ routings r' = routings r).
Proof.
  intros Hp. split.
  - intros Hs. unfold UpdateServer, deref_svr. rewrite Hp. cbn. rewrite Hs. reflexivity.
  - intros pold old Hs Hold. unfold UpdateServer, deref_svr. rewrite Hp. cbn.
    rewrite Hs. cbn. rewrite Hold. cbn.
    eexists _, _. split; [reflexivity|]. cbn.
    split; [apply lookup_insert_eq|]. split; [reflexivity|].
    split; [repeat split|]. split; [repeat split|].
    split; [intros q Hq; apply lookup_insert_ne; congruence|].
    repeat split.
Qed.

Lemma UpdateServer_spec_witness :
  UpdateServer 1%positive table_a = Done (Some ErrServerNotFound, table_a) /\
  exists r' old',
    UpdateServer 2%positive table_u = Done (None, r') /\
    svr_store r' !! 1%positive = Some old' /\
    MaxQPS old' = 7 /\ Status old' = Up.
Proof.
  split.
  - exact (proj1 (UpdateServer_spec 1%positive table_a server_a eq_refl) eq_refl).
  - destruct (proj2 (UpdateServer_spec 2%positive table_u (set_MaxQPS 7 server_a) eq_refl)
                1%positive server_a_up eq_refl eq_refl)
      as (r' & old' & Hrun & Hold & _ & (Hq & _) & Hkeep & _).
    exists r', old'. split; [exact Hrun|]. split; [exact Hold|]. split; [exact Hq|].
    destruct Hkeep as (_ & _ & _ & _ & _ & _ & _ & Hst & _). rewrite Hst. reflexivity.
Defined.
